(** * Energy-meter ingestion service: model and verified properties

    The service is one Express application (the full variant with the
    reading model and the three routes, and an earlier variant with the
    storage connector and [GET /] only).  The model follows the source:

    - JavaScript numbers are IEEE-754 doubles ([float]);
    - request bodies and the object [energyData] are maps from keys to JSON
      values;
    - the two module-level variables [mongoConnectionStatus] and
      [mongoError], together with the collection, form the server state;
    - [try]/[catch] is an exception monad ([outcome]);
    - the language built-ins the handlers call ([parseInt], [new Date(s)],
      [Number(s)], [toISOString]) are fields of the class [Runtime];
    - the object-document mapper is modelled as far as the handlers rely on
      it: a strict schema, number casting, validation on save, and
      find / sort / limit on the collection. *)

From Stdlib Require Import ZArith Ascii Floats.
From stdpp Require Import base strings gmap list sorting.

Set Warnings "-register-all".
Local Open Scope Z_scope.

(** ** JavaScript values *)

Inductive json :=
  | JNull
  | JBool (b : bool)
  | JNum (n : float)
  | JStr (s : string)
  | JArr (items : list json)
  | JObj (members : list (string * json)).

(** The result of [new Date(s)]: a time value in milliseconds, or an
    invalid date. *)
Inductive date :=
  | Date (ms : Z)
  | InvalidDate.

(** The value read from a [Number] path of a document. *)
Inductive numfield :=
  | Undefined
  | Null
  | Num (n : float).

(** An exception value: [error.name], [error.message], and the entries of
    [error.errors] (path and message) in insertion order. *)
Record error := {
  name : string;
  message : string;
  errors : list (string * string)
}.

(** Built-ins of the language runtime and the message formats of the
    mapper; [parseInt] returns [None] for NaN. *)
Class Runtime := {
  Number_of_string : string → float;
  parseInt : string → option Z;
  Date_of_string : string → date;
  toISOString : Z → string;
  castErrorMessage : string → json → string;
  queryCastErrorMessage : string → string;
  validationErrorMessage : list (string * string) → string
}.

(** ** try / catch *)

Inductive outcome (A : Type) :=
  | Ok (a : A)
  | Throw (e : error).
Arguments Ok {A} a.
Arguments Throw {A} e.

Global Instance outcome_bind : MBind outcome := λ A B k m,
  match m with
  | Ok a => k a
  | Throw e => Throw e
  end.

Definition try_catch {A} (m : outcome A) (handler : error → outcome A) : outcome A :=
  match m with
  | Ok a => Ok a
  | Throw e => handler e
  end.

(** ** Truthiness and number conversion *)

Definition truthy_string (s : string) : bool := negb (String.eqb s "").

Definition truthy_opt (o : option string) : bool :=
  match o with
  | Some s => truthy_string s
  | None => false
  end.

(** [0], [-0] and [NaN] are falsy, as are [undefined] and [null]. *)
Definition truthy (x : numfield) : bool :=
  match x with
  | Num n => negb (is_zero n || is_nan n)
  | _ => false
  end.

Definition ToNumber (x : numfield) : float :=
  match x with
  | Undefined => nan
  | Null => 0%float
  | Num n => n
  end.

Definition defined (x : numfield) : bool :=
  match x with
  | Undefined => false
  | _ => true
  end.

(** ** Reading model *)

(** A document of the model [EnergyMeter].  The six [Number] paths and
    [timestamp] are those of [energyMeterSchema]; [createdAt] and
    [updatedAt] come from the option [timestamps: true]; [_id] and [__v]
    are added by the mapper.  [extra] holds the string-valued paths outside
    the schema ([deviceId], [location]) that a document read back from the
    collection may carry. *)
Record EnergyMeter := {
  _id : N;
  voltage : numfield;
  current : numfield;
  power : numfield;
  energy : numfield;
  frequency : numfield;
  powerFactor : numfield;
  timestamp : Z;
  createdAt : Z;
  updatedAt : Z;
  __v : Z;
  extra : gmap string string
}.

(** The paths declared by [energyMeterSchema], in declaration order. *)
Definition number_paths : list string :=
  ["voltage"; "current"; "power"; "energy"; "frequency"; "powerFactor"].

Definition schema_paths : list string := number_paths ++ ["timestamp"].

(** [energyMeterSchema.methods.getApparentPower] *)
Definition getApparentPower (this : EnergyMeter) : float :=
  (ToNumber (power this) / abs (ToNumber (powerFactor this)))%float.

(** ** Collection queries *)

(** A filter as the handlers build it: an optional exact match on
    [deviceId] and optional bounds [$gte] and [$lte] on [timestamp].  The
    filter reaches the store as it is built: a path outside the schema is
    matched against the stored documents like any other. *)
Record filter := {
  f_deviceId : option string;
  f_gte : option date;
  f_lte : option date
}.

Definition match_deviceId (f : filter) (d : EnergyMeter) : bool :=
  match f_deviceId f with
  | None => true
  | Some x =>
      match extra d !! "deviceId" with
      | Some y => String.eqb y x
      | None => false
      end
  end.

Definition match_gte (f : filter) (d : EnergyMeter) : bool :=
  match f_gte f with
  | Some (Date a) => a <=? timestamp d
  | _ => true
  end.

Definition match_lte (f : filter) (d : EnergyMeter) : bool :=
  match f_lte f with
  | Some (Date b) => timestamp d <=? b
  | _ => true
  end.

Definition matches (f : filter) (d : EnergyMeter) : bool :=
  match_deviceId f d && match_gte f d && match_lte f d.

(** Casting the filter fails on an invalid date. *)
Definition filter_castable (f : filter) : bool :=
  match f_gte f, f_lte f with
  | Some InvalidDate, _ | _, Some InvalidDate => false
  | _, _ => true
  end.

(** [a] comes before [b] under [sort({ timestamp: -1 })]. *)
Definition newer_first (a b : EnergyMeter) : Prop := timestamp b ≤ timestamp a.

Global Instance newer_first_dec a b : Decision (newer_first a b).
Proof. unfold newer_first. apply _. Defined.

Definition sort_desc (l : list EnergyMeter) : list EnergyMeter :=
  merge_sort newer_first l.

(** [limit(n)] of the store: [0] means no limit, a negative [n] limits to
    its absolute value. *)
Definition limit (n : Z) (l : list EnergyMeter) : list EnergyMeter :=
  if n =? 0 then l else take (Z.to_nat (Z.abs n)) l.

Definition queryCastError `{Runtime} (path : string) : error :=
  {| name := "CastError"; message := queryCastErrorMessage path; errors := [] |}.

(** [find(query).sort({ timestamp: -1 })], awaited. *)
Definition find_sorted `{Runtime} (f : filter) (fault : option error)
    (coll : list EnergyMeter) : outcome (list EnergyMeter) :=
  if negb (filter_castable f) then Throw (queryCastError "timestamp")
  else match fault with
       | Some e => Throw e
       | None => Ok (sort_desc (List.filter (matches f) coll))
       end.

(** [find(query).sort({ timestamp: -1 }).limit(n)], awaited; a NaN limit is
    rejected. *)
Definition find_sorted_limit `{Runtime} (f : filter) (n : option Z)
    (fault : option error) (coll : list EnergyMeter)
    : outcome (list EnergyMeter) :=
  rs ← find_sorted f fault coll;
  match n with
  | Some n => Ok (limit n rs)
  | None => Throw (queryCastError "limit")
  end.

(** [energyMeterSchema.statics.getReadingsInRange]; the optional
    [deviceId] defaults to [null] ([None]). *)
Definition getReadingsInRange `{Runtime} (startDate endDate : date)
    (deviceId : option string) (fault : option error)
    (coll : list EnergyMeter) : outcome (list EnergyMeter) :=
  let query := {| f_deviceId := None;
                  f_gte := Some startDate;
                  f_lte := Some endDate |} in
  let query :=
    if truthy_opt deviceId
    then {| f_deviceId := deviceId; f_gte := f_gte query; f_lte := f_lte query |}
    else query in
  find_sorted query fault coll.

(** ** Building and saving a document *)

(** Casting a value assigned to a [Number] path: [null] and the empty
    string give [null], strings and booleans go through [Number], NaN and
    anything that is not a number fail. *)
Definition castNumber `{Runtime} (v : json) : option numfield :=
  let check (n : float) := if is_nan n then None else Some (Num n) in
  match v with
  | JNull => Some Null
  | JStr s => if String.eqb s "" then Some Null else check (Number_of_string s)
  | JBool b => check (if b then 1 else 0)%float
  | JNum n => check n
  | JArr _ | JObj _ => None
  end.

(** Setting one [Number] path from the constructor argument: the value of
    the path and the cast error recorded for it, if any. *)
Definition set_path `{Runtime} (obj : gmap string json) (path : string)
    : numfield * list (string * string) :=
  match obj !! path with
  | None => (Undefined, [])
  | Some v =>
      match castNumber v with
      | Some x => (x, [])
      | None => (Undefined, [(path, castErrorMessage path v)])
      end
  end.

(** [new EnergyMeter(obj)] for an [obj] without [timestamp]: the schema is
    strict, so only declared paths are set; [timestamp] takes its default
    [Date.now]; cast errors are kept for validation.  [createdAt] and
    [updatedAt] get their values in [save]. *)
Definition new_EnergyMeter `{Runtime} (obj : gmap string json) (id : N) (now : Z)
    : EnergyMeter * list (string * string) :=
  let '(v, e1) := set_path obj "voltage" in
  let '(c, e2) := set_path obj "current" in
  let '(p, e3) := set_path obj "power" in
  let '(e, e4) := set_path obj "energy" in
  let '(f, e5) := set_path obj "frequency" in
  let '(pf, e6) := set_path obj "powerFactor" in
  ({| _id := id; voltage := v; current := c; power := p; energy := e;
      frequency := f; powerFactor := pf; timestamp := now;
      createdAt := now; updatedAt := now; __v := 0; extra := ∅ |},
   e1 ++ e2 ++ e3 ++ e4 ++ e5 ++ e6).

Definition validationError `{Runtime} (errs : list (string * string)) : error :=
  {| name := "ValidationError";
     message := validationErrorMessage errs;
     errors := errs |}.

(** [doc.save()], awaited: validation first, then the insert, which fails
    with [fault] when the store does; [createdAt] and [updatedAt] are set
    to the time of the save. *)
Definition save `{Runtime} (doc : EnergyMeter * list (string * string))
    (now : Z) (fault : option error) : outcome EnergyMeter :=
  let '(d, errs) := doc in
  match errs with
  | _ :: _ => Throw (validationError errs)
  | [] =>
      match fault with
      | Some e => Throw e
      | None =>
          Ok {| _id := _id d; voltage := voltage d; current := current d;
                power := power d; energy := energy d;
                frequency := frequency d; powerFactor := powerFactor d;
                timestamp := timestamp d; createdAt := now; updatedAt := now;
                __v := __v d; extra := extra d |}
      end
  end.

(** The paths present on a document. *)
Definition present (p : string) (x : numfield) : gset string :=
  if defined x then {[ p ]} else ∅.

Definition paths (d : EnergyMeter) : gset string :=
  {[ "_id"; "timestamp"; "createdAt"; "updatedAt"; "__v" ]}
  ∪ present "voltage" (voltage d) ∪ present "current" (current d)
  ∪ present "power" (power d) ∪ present "energy" (energy d)
  ∪ present "frequency" (frequency d) ∪ present "powerFactor" (powerFactor d)
  ∪ dom (extra d).

(** ** Storage connector *)

Record server := {
  mongoConnectionStatus : string;
  mongoError : option string;
  collection : list EnergyMeter
}.

(** The module-level initial values; the collection is whatever the store
    holds at start. *)
Definition init (coll : list EnergyMeter) : server :=
  {| mongoConnectionStatus := "Disconnected";
     mongoError := None;
     collection := coll |}.

(** [connectMongoDB], given how [mongoose.connect] settles. *)
Definition connectMongoDB (connect : outcome ()) (s : server) : server :=
  match connect with
  | Ok _ =>
      {| mongoConnectionStatus := "Connected";
         mongoError := None;
         collection := collection s |}
  | Throw error =>
      {| mongoConnectionStatus := "Failed";
         mongoError := Some (message error);
         collection := collection s |}
  end.

(** The listeners on [mongoose.connection]. *)
Definition on_connected (s : server) : server :=
  {| mongoConnectionStatus := "Connected";
     mongoError := None;
     collection := collection s |}.

Definition on_disconnected (s : server) : server :=
  {| mongoConnectionStatus := "Disconnected";
     mongoError := mongoError s;
     collection := collection s |}.

Definition on_error (error : error) (s : server) : server :=
  {| mongoConnectionStatus := "Error";
     mongoError := Some (message error);
     collection := collection s |}.

(** ** HTTP service *)

(** The [mongodb] member of the [GET /] response; [info_error] is [None]
    when the response has no [error] member. *)
Record MongoInfo := {
  info_status : string;
  info_database : string;
  info_timestamp : string;
  info_error : option string
}.

(** Response bodies, one constructor per object literal passed to
    [res.json]; an optional member is an [option]. *)
Inductive body :=
  | Welcome (msg : string) (mongodb : MongoInfo)
  | Saved (msg : string) (data : EnergyMeter) (insertedId : N) (time : Z)
      (apparentPower : option float)
  | Readings (msg : string) (count : nat) (data : list EnergyMeter)
  | ValidationFailed (err : string) (details : list string)
  | Failure (err : string) (details : string).

Record response := {
  code : Z;
  payload : body
}.

(** What a [POST /] request meets outside the handler: the identifier and
    the clock readings the mapper uses, and the failure of the store, if
    it fails. *)
Record save_env := {
  fresh_id : N;
  now_new : Z;
  now_save : Z;
  save_fault : option error
}.

(** [req.query] of [GET /readings]; an absent parameter is [None]. *)
Record query := {
  q_deviceId : option string;
  q_startDate : option string;
  q_endDate : option string;
  q_limit : option string
}.

(** [app.get("/")] *)
Definition get_root `{Runtime} (MONGODB_URI : option string) (now : Z)
    (s : server) : response :=
  let mongodb :=
    {| info_status := mongoConnectionStatus s;
       info_database :=
         if truthy_opt MONGODB_URI then "Configured" else "Not Configured";
       info_timestamp := toISOString now;
       info_error := None |} in
  let mongodb :=
    if truthy_opt (mongoError s)
    then {| info_status := info_status mongodb;
            info_database := info_database mongodb;
            info_timestamp := info_timestamp mongodb;
            info_error := mongoError s |}
    else mongodb in
  {| code := 200;
     payload := Welcome "Welcome, your app is working well" mongodb |}.

(** [if (x !== undefined) energyData.target = x], where [x] is the member
    [source] of the body. *)
Definition assign_defined (source target : string) (body : gmap string json)
    (energyData : gmap string json) : gmap string json :=
  match body !! source with
  | Some x => <[target := x]> energyData
  | None => energyData
  end.

Definition build_energyData (body : gmap string json) : gmap string json :=
  let energyData : gmap string json := ∅ in
  let energyData := assign_defined "vol" "voltage" body energyData in
  let energyData := assign_defined "current" "current" body energyData in
  let energyData := assign_defined "power" "power" body energyData in
  let energyData := assign_defined "energy" "energy" body energyData in
  let energyData := assign_defined "frequency" "frequency" body energyData in
  let energyData := assign_defined "pf" "powerFactor" body energyData in
  let energyData := assign_defined "deviceId" "deviceId" body energyData in
  let energyData := assign_defined "location" "location" body energyData in
  energyData.

(** [app.post("/")]: the response and the collection after the request. *)
Definition post_root `{Runtime} (body : gmap string json) (env : save_env)
    (coll : list EnergyMeter) : outcome (response * list EnergyMeter) :=
  try_catch
    (let energyData := build_energyData body in
     let energyReading :=
       new_EnergyMeter energyData (fresh_id env) (now_new env) in
     savedReading ← save energyReading (now_save env) (save_fault env);
     let apparentPower :=
       if truthy (power savedReading) && truthy (powerFactor savedReading)
       then Some (getApparentPower savedReading)
       else None in
     Ok ({| code := 201;
            payload := Saved "Energy meter data saved successfully"
                         savedReading (_id savedReading)
                         (timestamp savedReading) apparentPower |},
         coll ++ [savedReading]))
    (λ error,
       if String.eqb (name error) "ValidationError"
       then Ok ({| code := 400;
                   payload := ValidationFailed "Validation failed"
                                (snd <$> errors error) |}, coll)
       else Ok ({| code := 500;
                   payload := Failure "Internal server error while saving data"
                                (message error) |}, coll)).

(** [app.get("/readings")]; [limit] defaults to the number [50], which
    [parseInt] returns as it is. *)
Definition get_readings `{Runtime} (q : query) (fault : option error)
    (coll : list EnergyMeter) : outcome response :=
  try_catch
    (let limit :=
       match q_limit q with
       | Some s => parseInt s
       | None => Some 50
       end in
     let query := {| f_deviceId := None; f_gte := None; f_lte := None |} in
     let query :=
       if truthy_opt (q_deviceId q)
       then {| f_deviceId := q_deviceId q;
               f_gte := f_gte query; f_lte := f_lte query |}
       else query in
     let query :=
       if truthy_opt (q_startDate q) || truthy_opt (q_endDate q)
       then {| f_deviceId := f_deviceId query;
               f_gte := if truthy_opt (q_startDate q)
                        then Date_of_string <$> q_startDate q else None;
               f_lte := if truthy_opt (q_endDate q)
                        then Date_of_string <$> q_endDate q else None |}
       else query in
     readings ← find_sorted_limit query limit fault coll;
     Ok {| code := 200;
           payload := Readings "Energy meter readings retrieved successfully"
                        (length readings) readings |})
    (λ error,
       Ok {| code := 500;
             payload := Failure "Internal server error while retrieving data"
                          (message error) |}).

(** ** The running process *)

Inductive event :=
  | ConnectSettled (connect : outcome ())
  | EvConnected
  | EvDisconnected
  | EvError (e : error)
  | GetRoot (now : Z)
  | PostRoot (body : gmap string json) (env : save_env)
  | GetReadings (q : query) (fault : option error).

(** One event: the next state and what the process answers.  A route
    answers [Ok r] when it sends [r], and [Throw e] if [e] escapes it. *)
Definition step `{Runtime} (MONGODB_URI : option string) (s : server)
    (ev : event) : server * option (outcome response) :=
  match ev with
  | ConnectSettled c => (connectMongoDB c s, None)
  | EvConnected => (on_connected s, None)
  | EvDisconnected => (on_disconnected s, None)
  | EvError e => (on_error e s, None)
  | GetRoot now => (s, Some (Ok (get_root MONGODB_URI now s)))
  | PostRoot body env =>
      match post_root body env (collection s) with
      | Ok (r, coll) =>
          ({| mongoConnectionStatus := mongoConnectionStatus s;
              mongoError := mongoError s;
              collection := coll |}, Some (Ok r))
      | Throw e => (s, Some (Throw e))
      end
  | GetReadings q fault => (s, Some (get_readings q fault (collection s)))
  end.

Definition run `{Runtime} (MONGODB_URI : option string) (s : server)
    (evs : list event) : server :=
  foldl (λ s ev, (step MONGODB_URI s ev).1) s evs.

(** Member access on a response. *)
Definition res_mongodb (r : response) : option MongoInfo :=
  match payload r with
  | Welcome _ m => Some m
  | _ => None
  end.

Definition res_data (r : response) : option EnergyMeter :=
  match payload r with
  | Saved _ d _ _ _ => Some d
  | _ => None
  end.

Definition res_apparentPower (r : response) : option float :=
  match payload r with
  | Saved _ _ _ _ ap => ap
  | _ => None
  end.

Definition res_readings (r : response) : list EnergyMeter :=
  match payload r with
  | Readings _ _ l => l
  | _ => []
  end.

Definition res_count (r : response) : option nat :=
  match payload r with
  | Readings _ n _ => Some n
  | _ => None
  end.

(** ** A concrete runtime for examples *)

(** The instance agrees with the built-ins on the inputs the examples use:
    [parseInt] on an optional sign followed by decimal digits (it stops at
    the first other character), [Number] on short strings of decimal
    digits, [new Date] on two ISO strings. *)
Definition digit_value (c : ascii) : option Z :=
  let n := Z.of_N (N_of_ascii c) in
  if (48 <=? n) && (n <=? 57) then Some (n - 48) else None.

Fixpoint digits_prefix (acc : option Z) (s : string) : option Z :=
  match s with
  | EmptyString => acc
  | String c s' =>
      match digit_value c with
      | Some d => digits_prefix (Some (10 * default 0 acc + d)) s'
      | None => acc
      end
  end.

Fixpoint all_digits (s : string) : bool :=
  match s with
  | EmptyString => true
  | String c s' => bool_decide (is_Some (digit_value c)) && all_digits s'
  end.

Definition example_parseInt (s : string) : option Z :=
  match s with
  | String "-" s' => Z.opp <$> digits_prefix None s'
  | String "+" s' => digits_prefix None s'
  | _ => digits_prefix None s
  end.

Definition example_Date (s : string) : date :=
  if String.eqb s "2024-01-01T00:00:00.000Z" then Date 1704067200000
  else if String.eqb s "2024-01-02T00:00:00.000Z" then Date 1704153600000
  else InvalidDate.

Definition example_runtime : Runtime :=
  {| Number_of_string := λ s,
       match digits_prefix None s with
       | Some n => if all_digits s then of_uint63 (Uint63.of_Z n) else nan
       | None => nan
       end;
     parseInt := example_parseInt;
     Date_of_string := example_Date;
     toISOString := λ _, "2024-01-01T00:00:00.000Z";
     castErrorMessage := λ path _, "Cast to Number failed at path " +:+ path;
     queryCastErrorMessage := λ path, "Cast failed at path " +:+ path;
     validationErrorMessage := λ _, "EnergyMeter validation failed" |}.

(** ** Auxiliary definitions *)

(** The handler's call of the constructor followed by [save], in
    [app.post("/")]. *)
Definition saved `{Runtime} (body : gmap string json) (env : save_env)
    : outcome EnergyMeter :=
  save (new_EnergyMeter (build_energyData body) (fresh_id env) (now_new env))
    (now_save env) (save_fault env).

(** The filter and the limit that [app.get("/readings")] passes to the
    store, as functions of the query string. *)
Definition readings_filter `{Runtime} (q : query) : filter :=
  {| f_deviceId := if truthy_opt (q_deviceId q) then q_deviceId q else None;
     f_gte := if truthy_opt (q_startDate q)
              then Date_of_string <$> q_startDate q else None;
     f_lte := if truthy_opt (q_endDate q)
              then Date_of_string <$> q_endDate q else None |}.

Definition readings_limit `{Runtime} (q : query) : option Z :=
  match q_limit q with
  | Some s => parseInt s
  | None => Some 50
  end.

(** The filter that [getReadingsInRange] builds. *)
Definition range_filter (a b : Z) (deviceId : option string) : filter :=
  {| f_deviceId := if truthy_opt deviceId then deviceId else None;
     f_gte := Some (Date a);
     f_lte := Some (Date b) |}.

(** ** Inputs of the scenarios *)

(** The body [{"vol":230,"current":2,"power":460,"pf":1}]. *)
Definition scenario_body : gmap string json :=
  <["vol" := JNum 230]> (<["current" := JNum 2]>
    (<["power" := JNum 460]> (<["pf" := JNum 1]> ∅))).

(** The body [{"deviceId":"meter-1"}]. *)
Definition deviceId_body : gmap string json :=
  <["deviceId" := JStr "meter-1"]> ∅.

(** The body [{"power":460,"pf":0}]. *)
Definition zero_pf_body : gmap string json :=
  <["power" := JNum 460]> (<["pf" := JNum 0]> ∅).

(** A request environment in which the store does not fail. *)
Definition env_ok (id : N) (t1 t2 : Z) : save_env :=
  {| fresh_id := id; now_new := t1; now_save := t2; save_fault := None |}.

(** A stored reading with the given identifier and time; [dev] is its
    [deviceId], if it has one. *)
Definition reading_at (id : N) (t : Z) (dev : option string) : EnergyMeter :=
  {| _id := id; voltage := Undefined; current := Undefined; power := Undefined;
     energy := Undefined; frequency := Undefined; powerFactor := Undefined;
     timestamp := t; createdAt := t; updatedAt := t; __v := 0;
     extra := match dev with
              | Some x => <["deviceId" := x]> ∅
              | None => ∅
              end |}.

(** Five stored readings, not in time order. *)
Definition five_readings : list EnergyMeter :=
  [reading_at 1 1704067230000 (Some "meter-1");
   reading_at 2 1704067210000 (Some "meter-2");
   reading_at 3 1704067250000 (Some "meter-1");
   reading_at 4 1704067220000 None;
   reading_at 5 1704067240000 (Some "meter-2")].

(** [GET /readings] with the given parameters. *)
Definition no_params : query :=
  {| q_deviceId := None; q_startDate := None; q_endDate := None;
     q_limit := None |}.

Definition limit_only (l : string) : query :=
  {| q_deviceId := None; q_startDate := None; q_endDate := None;
     q_limit := Some l |}.

Definition device_only (x : string) : query :=
  {| q_deviceId := Some x; q_startDate := None; q_endDate := None;
     q_limit := None |}.

Definition range_only (a b : string) : query :=
  {| q_deviceId := None; q_startDate := Some a; q_endDate := Some b;
     q_limit := None |}.

(** The body [{"vol":"abc"}]. *)
Definition bad_body : gmap string json := <["vol" := JStr "abc"]> ∅.

(** ** Further auxiliary definitions *)

(** The members of the body that [app.post("/")] copies to a [Number]
    path, with the path each one is assigned to and the field that reads
    it. *)
Definition numeric_members : list (string * string * (EnergyMeter → numfield)) :=
  [("vol", "voltage", voltage); ("current", "current", current);
   ("power", "power", power); ("energy", "energy", energy);
   ("frequency", "frequency", frequency); ("pf", "powerFactor", powerFactor)].

(** Every numeric member present in the body can be cast. *)
Definition castable `{Runtime} (body : gmap string json) : bool :=
  forallb (λ m, match body !! m.1.1 with
                | Some v => bool_decide (is_Some (castNumber v))
                | None => true
                end) numeric_members.

(** A query parameter that is the empty string, read as absent. *)
Definition drop_empty (o : option string) : option string :=
  if truthy_opt o then o else None.

Definition with_limit (q : query) (l : option string) : query :=
  {| q_deviceId := q_deviceId q; q_startDate := q_startDate q;
     q_endDate := q_endDate q; q_limit := l |}.

(** A reading like [d] with another [powerFactor]. *)
Definition with_powerFactor (x : numfield) (d : EnergyMeter) : EnergyMeter :=
  {| _id := _id d; voltage := voltage d; current := current d;
     power := power d; energy := energy d; frequency := frequency d;
     powerFactor := x; timestamp := timestamp d; createdAt := createdAt d;
     updatedAt := updatedAt d; __v := __v d; extra := extra d |}.

(** The body [{"vol":230,"deviceId":"meter-1","location":"lab"}] and the
    body [{"vol":230}]. *)
Definition tagged_body : gmap string json :=
  <["vol" := JNum 230]> (<["deviceId" := JStr "meter-1"]>
    (<["location" := JStr "lab"]> ∅)).

Definition plain_body : gmap string json := <["vol" := JNum 230]> ∅.

(** A request environment in which the store fails. *)
Definition env_failing : save_env :=
  {| fresh_id := 7; now_new := 1000; now_save := 1001;
     save_fault := Some {| name := "MongoNetworkError";
                           message := "connection closed";
                           errors := [] |} |}.

(** The query with its empty [deviceId], [startDate] and [endDate] taken
    out. *)
Definition drop_empty_params (q : query) : query :=
  {| q_deviceId := drop_empty (q_deviceId q);
     q_startDate := drop_empty (q_startDate q);
     q_endDate := drop_empty (q_endDate q);
     q_limit := q_limit q |}.

(** [GET /readings?deviceId=&startDate=&endDate=]. *)
Definition empty_params : query :=
  {| q_deviceId := Some ""; q_startDate := Some ""; q_endDate := Some "";
     q_limit := None |}.

(** A reading with [power] 460 and [powerFactor] 0.5. *)
Definition powered_reading : EnergyMeter :=
  {| _id := 1; voltage := Undefined; current := Undefined; power := Num 460;
     energy := Undefined; frequency := Undefined; powerFactor := Num 0.5;
     timestamp := 1000; createdAt := 1000; updatedAt := 1000; __v := 0;
     extra := ∅ |}.

(** The events after which a connection is established: the connect call
    resolving, and the 'connected' event. *)
Definition establishes (ev : event) : bool :=
  match ev with
  | ConnectSettled (Ok _) | EvConnected => true
  | _ => false
  end.

(** The error of an event that reports a failure: the connect call
    rejecting, and the 'error' event. *)
Definition failure_of (ev : event) : option error :=
  match ev with
  | ConnectSettled (Throw e) | EvError e => Some e
  | _ => None
  end.

(** The error of the last failure among the events, if there is one. *)
Definition last_failure (evs : list event) : option error :=
  foldl (λ acc ev, match failure_of ev with
                   | Some e => Some e
                   | None => acc
                   end) None evs.

(** The statuses a process shows once a failure was reported and no
    connection was established since. *)
Definition failed_statuses : list string := ["Failed"; "Error"; "Disconnected"].

(** What a process goes through when the endpoint refuses connections:
    the client reports a disconnect, the connect call rejects, and the
    'error' event follows. *)
Definition refused : error :=
  {| name := "MongooseServerSelectionError";
     message := "connect ECONNREFUSED";
     errors := [] |}.

Definition unreachable_run : list event :=
  [EvDisconnected; ConnectSettled (Throw refused); EvError refused].

(** * Properties *)

(** ** Storage connector *)

Definition statuses : list string :=
  ["Disconnected"; "Connected"; "Failed"; "Error"].

(** The events that are HTTP requests. *)
Definition is_request (ev : event) : bool :=
  match ev with
  | GetRoot _ | PostRoot _ _ | GetReadings _ _ => true
  | _ => false
  end.

(** The events whose handler assigns [mongoError]. *)
Definition writes_error (ev : event) : bool :=
  match ev with
  | ConnectSettled _ | EvConnected | EvError _ => true
  | _ => false
  end.

Section connector.
Context `{Runtime}.
Variable MONGODB_URI : option string.

Lemma step_request_state s ev :
  is_request ev = true →
  mongoConnectionStatus (step MONGODB_URI s ev).1 = mongoConnectionStatus s ∧
  mongoError (step MONGODB_URI s ev).1 = mongoError s.
Proof.
  destruct ev as [| | | | now | body env | q fault]; try discriminate; intros _; simpl; auto.
  destruct (post_root body env (collection s)) as [[r coll]|e]; auto.
Qed.

Lemma step_status_valid s ev :
  mongoConnectionStatus s ∈ statuses →
  mongoConnectionStatus (step MONGODB_URI s ev).1 ∈ statuses.
Proof.
  intros Hs.
  destruct ev as [[[]|e]| | |e| now | body env | q fault]; simpl;
    try (apply list_elem_of_In; simpl; tauto); auto.
  destruct (post_root body env (collection s)) as [[r coll]|e]; auto.
Qed.

Lemma run_snoc s evs ev :
  run MONGODB_URI s (evs ++ [ev]) = (step MONGODB_URI (run MONGODB_URI s evs) ev).1.
Proof. unfold run. by rewrite foldl_app. Qed.

Lemma run_app s evs1 evs2 :
  run MONGODB_URI s (evs1 ++ evs2) = run MONGODB_URI (run MONGODB_URI s evs1) evs2.
Proof. unfold run. by rewrite foldl_app. Qed.

Lemma run_status_valid coll evs :
  mongoConnectionStatus (run MONGODB_URI (init coll) evs) ∈ statuses.
Proof.
  induction evs as [|ev evs IH] using rev_ind.
  - apply list_elem_of_In. simpl. tauto.
  - rewrite run_snoc. by apply step_status_valid.
Qed.

Lemma step_keeps_error s ev :
  writes_error ev = false →
  mongoError (step MONGODB_URI s ev).1 = mongoError s.
Proof.
  destruct ev as [| | | | now | body env | q fault]; try discriminate; intros _; simpl; auto.
  destruct (post_root body env (collection s)) as [[r coll]|e]; auto.
Qed.

Lemma run_keeps_error s evs :
  Forall (λ ev, writes_error ev = false) evs →
  mongoError (run MONGODB_URI s evs) = mongoError s.
Proof.
  induction evs as [|ev evs IH] using rev_ind; [done|].
  intros [Hevs Hev%Forall_inv]%Forall_app.
  rewrite run_snoc, step_keeps_error by done. auto.
Qed.
End connector.

(** C9. In every state reachable from the initial one the connection status
    is one of Disconnected, Connected, Failed, Error.  The connect call and
    the three listeners set it as follows: connect success and the
    'connected' event give Connected and a null error; connect failure gives
    Failed and records the message; the 'error' event gives Error and
    records the message; the 'disconnected' event gives Disconnected.  No
    HTTP route changes the status or the error: an event that changes
    either is not a request. *)
Theorem connector_status_invariant `{Runtime} (MONGODB_URI : option string) :
  (∀ coll evs,
     mongoConnectionStatus (run MONGODB_URI (init coll) evs) ∈ statuses) ∧
  (∀ s, mongoConnectionStatus (connectMongoDB (Ok ()) s) = "Connected" ∧
        mongoError (connectMongoDB (Ok ()) s) = None) ∧
  (∀ s, mongoConnectionStatus (on_connected s) = "Connected" ∧
        mongoError (on_connected s) = None) ∧
  (∀ s e, mongoConnectionStatus (connectMongoDB (Throw e) s) = "Failed" ∧
          mongoError (connectMongoDB (Throw e) s) = Some (message e)) ∧
  (∀ s e, mongoConnectionStatus (on_error e s) = "Error" ∧
          mongoError (on_error e s) = Some (message e)) ∧
  (∀ s, mongoConnectionStatus (on_disconnected s) = "Disconnected") ∧
  (∀ s ev,
     is_request ev = false ∨
     (mongoConnectionStatus (step MONGODB_URI s ev).1 = mongoConnectionStatus s ∧
      mongoError (step MONGODB_URI s ev).1 = mongoError s)).
Proof.
  split; [intros; apply run_status_valid|].
  repeat (split; [done|]).
  intros s ev. destruct (is_request ev) eqn:Hev; [right|by left].
  by apply step_request_state.
Qed.

(** C10. The 'disconnected' listener sets the status to Disconnected and
    leaves the last error as it was, so [GET /] shows the same error member
    before and after it.  In a run where an error event is followed by
    events that do not assign the error and then by a disconnect, the last
    error is still the message of that event, and [GET /] reports the
    status Disconnected together with the error member it showed right
    after the error event: the stale message, when that is not empty. *)
Theorem disconnected_keeps_error `{Runtime} (MONGODB_URI : option string) (now : Z) :
  (∀ s, mongoConnectionStatus (on_disconnected s) = "Disconnected" ∧
        mongoError (on_disconnected s) = mongoError s ∧
        (info_error <$> res_mongodb (get_root MONGODB_URI now (on_disconnected s)))
        = (info_error <$> res_mongodb (get_root MONGODB_URI now s))) ∧
  (∀ s e evs,
     Forall (λ ev, writes_error ev = false) evs →
     let s' := run MONGODB_URI s ([EvError e] ++ evs ++ [EvDisconnected]) in
     mongoError s' = Some (message e) ∧
     ∃ m, res_mongodb (get_root MONGODB_URI now s') = Some m ∧
          info_status m = "Disconnected" ∧
          (info_error <$> res_mongodb (get_root MONGODB_URI now (on_error e s)))
          = Some (info_error m) ∧
          (message e ≠ "" → info_error m = Some (message e))).
Proof.
  split.
  { intros s. repeat split. unfold get_root, res_mongodb; simpl.
    by destruct (truthy_opt (mongoError s)). }
  intros s e evs Hevs s'.
  assert (Hst : mongoConnectionStatus s' = "Disconnected").
  { subst s'. by rewrite app_assoc, run_snoc. }
  assert (Herr : mongoError s' = Some (message e)).
  { subst s'. rewrite run_app. rewrite run_keeps_error; [done|].
    apply Forall_app. split; [done|]. by constructor. }
  split; [done|].
  unfold get_root, res_mongodb; simpl. rewrite Herr, Hst. simpl.
  unfold truthy_string.
  destruct (String.eqb_spec (message e) "") as [Heq|Hne]; simpl.
  - eexists. repeat split. done.
  - eexists. repeat split.
Qed.

Lemma disconnected_keeps_error_witness :
  ∃ m, res_mongodb
         (@get_root example_runtime (Some "mongodb://localhost/meters") 0
            (@run example_runtime (Some "mongodb://localhost/meters") (init [])
               [EvError {| name := "MongoNetworkError";
                           message := "connection timed out";
                           errors := [] |};
                GetRoot 0; EvDisconnected]))
       = Some m ∧
       info_status m = "Disconnected" ∧
       info_error m = Some "connection timed out".
Proof.
  destruct (proj2 (@disconnected_keeps_error example_runtime
                     (Some "mongodb://localhost/meters") 0)
              (init [])
              {| name := "MongoNetworkError";
                 message := "connection timed out"; errors := [] |}
              [GetRoot 0]) as (_ & m & Hm & Hst & _ & Herr).
  - repeat constructor.
  - exists m. split; [exact Hm|]. split; [exact Hst|]. apply Herr. discriminate.
Defined.

(** Runs in which no connection is established. *)
Section unreachable.
Context `{Runtime}.
Variable MONGODB_URI : option string.

Lemma last_failure_snoc evs ev :
  last_failure (evs ++ [ev]) =
    match failure_of ev with
    | Some e => Some e
    | None => last_failure evs
    end.
Proof. unfold last_failure. by rewrite foldl_app. Qed.

Lemma run_unreachable s evs :
  Forall (λ ev, establishes ev = false) evs →
  match last_failure evs with
  | Some e =>
      mongoError (run MONGODB_URI s evs) = Some (message e) ∧
      mongoConnectionStatus (run MONGODB_URI s evs) ∈ failed_statuses
  | None => mongoError (run MONGODB_URI s evs) = mongoError s
  end.
Proof.
  induction evs as [|ev evs IH] using rev_ind; [done|].
  intros [Hevs Hev%Forall_inv]%Forall_app. specialize (IH Hevs).
  rewrite last_failure_snoc, run_snoc.
  destruct ev as [[[]|e]| | |e| now' | body env | q fault];
    try discriminate; simpl.
  - split; [done|]. apply list_elem_of_In. simpl. tauto.
  - destruct (last_failure evs); [|done].
    split; [tauto|]. apply list_elem_of_In. simpl. tauto.
  - split; [done|]. apply list_elem_of_In. simpl. tauto.
  - done.
  - destruct (post_root body env _) as [[r coll]|e]; done.
  - done.
Qed.
End unreachable.

(** C7 (as amended). [GET /] always answers 200 with the welcome message,
    the current status, whether the endpoint variable is set to a non-empty
    string, and the current time; the [error] member is present exactly
    when the last error is a non-empty string, and is then that string.
    When the endpoint is unreachable, that is, in a run where no connection
    is established and a failure is reported (the connect call rejects or
    the 'error' event fires), the status shown is Failed, Error or
    Disconnected, and the error shown is the message of the last failure
    when that is not empty.  The status is Failed when the rejection of the
    connect call is handled last and Error when the 'error' listener runs
    last. *)
Theorem get_root_reports `{Runtime} (MONGODB_URI : option string) (now : Z) :
  (∀ s, ∃ m,
     get_root MONGODB_URI now s =
       {| code := 200;
          payload := Welcome "Welcome, your app is working well" m |} ∧
     info_status m = mongoConnectionStatus s ∧
     info_database m =
       (if truthy_opt MONGODB_URI then "Configured" else "Not Configured") ∧
     info_timestamp m = toISOString now ∧
     (∀ e, info_error m = Some e ↔ mongoError s = Some e ∧ e ≠ "")) ∧
  (∀ s evs e,
     Forall (λ ev, establishes ev = false) evs →
     last_failure evs = Some e →
     code (get_root MONGODB_URI now (run MONGODB_URI s evs)) = 200 ∧
     ∃ m, res_mongodb (get_root MONGODB_URI now (run MONGODB_URI s evs))
          = Some m ∧
          info_status m ∈ failed_statuses ∧
          (message e ≠ "" → info_error m = Some (message e))) ∧
  (∀ s evs e,
     mongoConnectionStatus
       (run MONGODB_URI s (evs ++ [ConnectSettled (Throw e)])) = "Failed" ∧
     mongoConnectionStatus
       (run MONGODB_URI s (evs ++ [EvError e])) = "Error").
Proof.
  split; [|split].
  - intros s. unfold get_root. eexists. split; [reflexivity|].
    destruct (mongoError s) as [m|] eqn:Hm; simpl.
    + unfold truthy_string. destruct (String.eqb_spec m "") as [->|Hne]; simpl.
      * repeat split; try done. all: intros; intuition congruence.
      * repeat split; try done. all: intros; intuition congruence.
    + repeat split; try done. all: intros; intuition congruence.
  - intros s evs e Hevs He.
    pose proof (run_unreachable MONGODB_URI s evs Hevs) as Hrun.
    rewrite He in Hrun. destruct Hrun as [Herr Hst].
    split; [done|].
    unfold get_root, res_mongodb; simpl. rewrite Herr. simpl.
    unfold truthy_string.
    destruct (String.eqb_spec (message e) "") as [Heq|Hne]; simpl.
    + eexists. repeat split; done.
    + eexists. repeat split; done.
  - intros s evs e. by rewrite !run_snoc.
Qed.

Lemma get_root_reports_witness :
  ∃ m, res_mongodb
         (@get_root example_runtime (Some "mongodb://unreachable/meters") 0
            (@run example_runtime (Some "mongodb://unreachable/meters")
               (init []) unreachable_run))
       = Some m ∧
       info_status m = "Error" ∧
       info_error m = Some "connect ECONNREFUSED".
Proof.
  destruct (proj1 (proj2 (@get_root_reports example_runtime
                            (Some "mongodb://unreachable/meters") 0))
              (init []) unreachable_run refused)
    as (_ & m & Hm & _ & Herr).
  - by repeat constructor.
  - reflexivity.
  - exists m. split; [exact Hm|]. split.
    + vm_compute in Hm. by injection Hm as <-.
    + apply Herr. discriminate.
Defined.

(** C7 as stated fails twice.  After a connect call rejected with an empty
    message the last error is not null, yet [GET /] has no [error] member.
    And when the endpoint refuses connections, the 'error' listener runs
    after the rejection of the connect call was handled, so the status
    shown is Error, not Failed. *)
Lemma get_root_error_counterexample :
  ¬ (∀ m,
       res_mongodb
         (@get_root example_runtime None 0
            (connectMongoDB
               (Throw {| name := "Error"; message := ""; errors := [] |})
               (init []))) = Some m →
       (is_Some (info_error m) ↔
        mongoError
          (connectMongoDB
             (Throw {| name := "Error"; message := ""; errors := [] |})
             (init [])) ≠ None)) ∧
  ¬ (∀ m,
       res_mongodb
         (@get_root example_runtime (Some "mongodb://unreachable/meters") 0
            (@run example_runtime (Some "mongodb://unreachable/meters")
               (init []) unreachable_run)) = Some m →
       info_status m = "Failed").
Proof.
  split.
  - intros Hc. specialize (Hc _ eq_refl). simpl in Hc.
    destruct Hc as [_ Hc]. destruct Hc as [? Hc]; [done|]. discriminate.
  - intros Hc. specialize (Hc _ eq_refl). discriminate.
Qed.

(** ** Floating-point facts *)

Lemma is_zero_SF q : is_zero q = true → ∃ s, Prim2SF q = S754_zero s.
Proof.
  unfold is_zero. rewrite FloatAxioms.eqb_spec.
  change (Prim2SF zero) with (S754_zero false).
  destruct (Prim2SF q) as [s|s| |s m e]; simpl; try discriminate; eauto.
  all: unfold SFeqb; simpl; destruct s; discriminate.
Qed.

Lemma div_by_zero_not_finite p q :
  is_zero q = true → is_finite (p / abs q) = false.
Proof.
  intros [s Hq]%is_zero_SF.
  assert (Hd : Prim2SF (p / abs q) = S754_nan ∨
               ∃ b, Prim2SF (p / abs q) = S754_infinity b).
  { rewrite div_spec, abs_spec, Hq. simpl.
    destruct (Prim2SF p); simpl; eauto. }
  unfold is_finite, is_nan, is_infinity.
  rewrite !FloatAxioms.eqb_spec, abs_spec.
  destruct Hd as [-> | [[] ->]]; vm_compute; reflexivity.
Qed.

Lemma truthy_spec x :
  truthy x = true ↔ ∃ n, x = Num n ∧ is_zero n = false ∧ is_nan n = false.
Proof.
  destruct x as [| |n]; simpl.
  - split; [done|]. by intros (? & ? & _).
  - split; [done|]. by intros (? & ? & _).
  - rewrite negb_true_iff, orb_false_iff. split.
    + intros [??]. eauto.
    + by intros (? & [= <-] & ? & ?).
Qed.

(** ** POST / *)

Section post.
Context `{Runtime}.

Lemma post_root_saved body env coll d :
  saved body env = Ok d →
  post_root body env coll =
    Ok ({| code := 201;
           payload := Saved "Energy meter data saved successfully" d (_id d)
                        (timestamp d)
                        (if truthy (power d) && truthy (powerFactor d)
                         then Some (getApparentPower d) else None) |},
        coll ++ [d]).
Proof. unfold saved, post_root. by intros ->. Qed.

Lemma post_root_failed body env coll e :
  saved body env = Throw e →
  post_root body env coll =
    if String.eqb (name e) "ValidationError"
    then Ok ({| code := 400;
                payload := ValidationFailed "Validation failed"
                             (snd <$> errors e) |}, coll)
    else Ok ({| code := 500;
                payload := Failure "Internal server error while saving data"
                             (message e) |}, coll).
Proof. unfold saved, post_root. by intros ->. Qed.

Lemma post_root_total body env coll :
  ∃ r coll', post_root body env coll = Ok (r, coll').
Proof.
  destruct (saved body env) as [d|e] eqn:Hs.
  - rewrite (post_root_saved _ _ _ _ Hs). eauto.
  - rewrite (post_root_failed _ _ _ _ Hs). destruct (String.eqb _ _); eauto.
Qed.

Lemma post_root_created body env coll r coll' :
  post_root body env coll = Ok (r, coll') →
  code r = 201 →
  ∃ d, saved body env = Ok d ∧
       res_data r = Some d ∧
       coll' = coll ++ [d] ∧
       res_apparentPower r =
         (if truthy (power d) && truthy (powerFactor d)
          then Some (getApparentPower d) else None).
Proof.
  destruct (saved body env) as [d|e] eqn:Hs.
  - rewrite (post_root_saved _ _ _ _ Hs). intros [= <- <-] _. eauto.
  - rewrite (post_root_failed _ _ _ _ Hs).
    destruct (String.eqb _ _); intros [= <- <-]; discriminate.
Qed.

(** Documents built by the constructor carry no path outside the schema. *)
Lemma saved_extra body env d : saved body env = Ok d → extra d = ∅.
Proof.
  unfold saved, new_EnergyMeter, save.
  repeat match goal with |- context [set_path ?o ?p] =>
    destruct (set_path o p) as [? ?] end.
  simpl. destruct (_ ++ _); [|discriminate].
  destruct (save_fault env); [discriminate|]. by intros [= <-].
Qed.
(** A cast keeps no NaN, so no [Number] path of a saved document is NaN. *)
Lemma set_path_not_nan obj path x errs n :
  set_path obj path = (x, errs) → x = Num n → is_nan n = false.
Proof.
  unfold set_path. destruct (obj !! path) as [v|]; [|by intros [= <- _]].
  destruct (castNumber v) as [y|] eqn:Hc; [|by intros [= <- _]].
  intros [= <- _] ->. revert Hc. unfold castNumber.
  destruct v as [|b|m|str| |]; try discriminate.
  - destruct (is_nan _) eqn:E; [discriminate|]. by intros [= <-].
  - destruct (is_nan m) eqn:E; [discriminate|]. by intros [= <-].
  - destruct (String.eqb str ""); [discriminate|].
    destruct (is_nan _) eqn:E; [discriminate|]. by intros [= <-].
Qed.

Lemma saved_not_nan body env d :
  saved body env = Ok d →
  (∀ n, voltage d = Num n → is_nan n = false) ∧
  (∀ n, current d = Num n → is_nan n = false) ∧
  (∀ n, power d = Num n → is_nan n = false) ∧
  (∀ n, energy d = Num n → is_nan n = false) ∧
  (∀ n, frequency d = Num n → is_nan n = false) ∧
  (∀ n, powerFactor d = Num n → is_nan n = false).
Proof.
  unfold saved, new_EnergyMeter, save.
  destruct (set_path _ "voltage") as [x1 l1] eqn:E1.
  destruct (set_path _ "current") as [x2 l2] eqn:E2.
  destruct (set_path _ "power") as [x3 l3] eqn:E3.
  destruct (set_path _ "energy") as [x4 l4] eqn:E4.
  destruct (set_path _ "frequency") as [x5 l5] eqn:E5.
  destruct (set_path _ "powerFactor") as [x6 l6] eqn:E6.
  simpl. destruct (_ ++ _); [|discriminate].
  destruct (save_fault env); [discriminate|]. intros [= <-]. simpl.
  repeat split; intros k Hk; eauto using set_path_not_nan.
Qed.
End post.

(** C1. The body [{"deviceId":"meter-1"}] is a valid partial body, and the
    handler copies [deviceId] into [energyData]; the request succeeds with
    201, but the stored record, which is also the [data] of the response,
    has no [deviceId]: the schema does not declare that path. *)
Theorem post_root_drops_deviceId `{Runtime} (id : N) (t1 t2 : Z)
    (coll : list EnergyMeter) :
  build_energyData deviceId_body !! "deviceId" = Some (JStr "meter-1") ∧
  ∃ r d,
    post_root deviceId_body (env_ok id t1 t2) coll = Ok (r, coll ++ [d]) ∧
    code r = 201 ∧
    res_data r = Some d ∧
    ("deviceId" ∉ paths d) ∧
    extra d !! "deviceId" = None.
Proof.
  split; [by vm_compute|].
  do 2 eexists. split; [by vm_compute|].
  repeat split. by vm_compute.
Qed.

(** C2 (as amended). In the 201 response of [POST /], [apparentPower] is
    present only if the stored record has both [power] and [powerFactor]
    defined and [powerFactor] is a number other than zero; it is present,
    with the value of [getApparentPower], whenever [power] and
    [powerFactor] are both numbers other than zero. *)
Theorem apparentPower_present `{Runtime} body env coll r coll' :
  post_root body env coll = Ok (r, coll') →
  code r = 201 →
  ∃ d, res_data r = Some d ∧
       coll' = coll ++ [d] ∧
       (is_Some (res_apparentPower r) →
        defined (power d) = true ∧ defined (powerFactor d) = true ∧
        ∃ q, powerFactor d = Num q ∧ is_zero q = false) ∧
       (∀ p q, power d = Num p → powerFactor d = Num q →
               is_zero p = false → is_zero q = false →
               res_apparentPower r = Some (p / abs q)%float).
Proof.
  intros Hp Hc.
  destruct (post_root_created _ _ _ _ _ Hp Hc) as (d & Hs & Hd & Hcoll & Hap).
  exists d. split; [done|]. split; [done|]. split.
  - rewrite Hap. intros Hsome.
    destruct (truthy (power d)) eqn:E1; [|by destruct Hsome].
    destruct (truthy (powerFactor d)) eqn:E2; [|by destruct Hsome].
    apply truthy_spec in E1 as (p & Ep & _ & _).
    apply truthy_spec in E2 as (q & Eq & Hq & _).
    rewrite Ep, Eq. eauto.
  - intros p q Ep Eq Hzp Hzq.
    destruct (saved_not_nan _ _ _ Hs) as (_ & _ & Hnp & _ & _ & Hnq).
    rewrite Hap. unfold getApparentPower. rewrite Ep, Eq. simpl.
    by rewrite Hzp, Hzq, (Hnp _ Ep), (Hnq _ Eq).
Qed.

Lemma apparentPower_present_witness :
  ∃ r coll',
    @post_root example_runtime scenario_body (env_ok 7 1000 1001) []
      = Ok (r, coll') ∧
    code r = 201 ∧
    ∃ d, res_data r = Some d ∧
         coll' = [] ++ [d] ∧
         (is_Some (res_apparentPower r) →
          defined (power d) = true ∧ defined (powerFactor d) = true ∧
          ∃ q, powerFactor d = Num q ∧ is_zero q = false) ∧
         (∀ p q, power d = Num p → powerFactor d = Num q →
                 is_zero p = false → is_zero q = false →
                 res_apparentPower r = Some (p / abs q)%float).
Proof.
  eexists _, _. split; [reflexivity|]. split; [reflexivity|].
  apply (@apparentPower_present example_runtime scenario_body
           (env_ok 7 1000 1001) []); reflexivity.
Defined.

(** C2 as stated fails: for the body [{"power":460,"pf":0}] the stored
    record has both [power] and [powerFactor] defined, and the 201 response
    has no [apparentPower]. *)
Lemma apparentPower_defined_counterexample :
  ¬ (∀ r coll',
       @post_root example_runtime zero_pf_body (env_ok 7 1000 1001) []
         = Ok (r, coll') →
       code r = 201 →
       ∃ d, res_data r = Some d ∧
            (is_Some (res_apparentPower r) ↔
             defined (power d) = true ∧ defined (powerFactor d) = true)).
Proof.
  intros Hc.
  destruct (Hc _ _ eq_refl eq_refl) as (d & [= <-] & _ & Hsome).
  by destruct Hsome.
Qed.

(** ** GET /readings: the shape of the handler *)

Section readings_shape.
Context `{Runtime}.

Lemma get_readings_eq q fault coll :
  get_readings q fault coll =
    match find_sorted_limit (readings_filter q) (readings_limit q) fault coll with
    | Ok readings =>
        Ok {| code := 200;
              payload := Readings "Energy meter readings retrieved successfully"
                           (length readings) readings |}
    | Throw error =>
        Ok {| code := 500;
              payload := Failure "Internal server error while retrieving data"
                           (message error) |}
    end.
Proof.
  unfold get_readings, readings_filter, readings_limit.
  destruct (truthy_opt (q_deviceId q)), (truthy_opt (q_startDate q)),
    (truthy_opt (q_endDate q)) eqn:He; simpl;
    try (destruct (find_sorted_limit _ _ _ _); reflexivity).
Qed.

Lemma get_readings_total q fault coll : ∃ r, get_readings q fault coll = Ok r.
Proof.
  rewrite get_readings_eq. destruct (find_sorted_limit _ _ _ _); eauto.
Qed.

Lemma step_never_throws MONGODB_URI s ev e :
  (step MONGODB_URI s ev).2 ≠ Some (Throw e).
Proof.
  destruct ev as [| | | | now | body env | q fault]; simpl; try done.
  - destruct (post_root_total body env (collection s)) as (r & coll & ->). done.
  - destruct (get_readings_total q fault (collection s)) as (r & ->). done.
Qed.
End readings_shape.

(** C3. For a reading whose [power] and [powerFactor] are numbers,
    [getApparentPower] is [power] divided by the absolute value of
    [powerFactor]; when [powerFactor] is zero the quotient is not a finite
    number (it is an infinity or NaN), and [POST /] leaves [apparentPower]
    out of its response.  For the body
    [{"vol":230,"current":2,"power":460,"pf":1}], [POST /] answers 201
    with [data.voltage = 230], [data.current = 2], [data.power = 460],
    [data.powerFactor = 1] and [apparentPower = 460]. *)
Theorem getApparentPower_spec `{Runtime} :
  (∀ d p q,
     power d = Num p → powerFactor d = Num q →
     getApparentPower d = (p / abs q)%float ∧
     (is_zero q = true → is_finite (getApparentPower d) = false)) ∧
  (∀ body env coll r coll' d q,
     post_root body env coll = Ok (r, coll') →
     res_data r = Some d → powerFactor d = Num q → is_zero q = true →
     res_apparentPower r = None) ∧
  (∀ id t1 t2 coll,
     ∃ d, post_root scenario_body (env_ok id t1 t2) coll =
            Ok ({| code := 201;
                   payload := Saved "Energy meter data saved successfully"
                                d id t1 (Some 460%float) |},
                coll ++ [d]) ∧
          voltage d = Num 230 ∧ current d = Num 2 ∧
          power d = Num 460 ∧ powerFactor d = Num 1).
Proof.
  split; [|split].
  - intros d p q Hp Hq. unfold getApparentPower. rewrite Hp, Hq. simpl.
    split; [done|]. apply div_by_zero_not_finite.
  - intros body env coll r coll' d q Hpost Hd Hq Hz.
    destruct (saved body env) as [d'|e] eqn:Hs.
    + rewrite (post_root_saved _ _ _ _ Hs) in Hpost.
      injection Hpost as <- <-. injection Hd as ->. simpl.
      rewrite Hq. simpl. rewrite Hz. simpl. by rewrite andb_false_r.
    + rewrite (post_root_failed _ _ _ _ Hs) in Hpost.
      destruct (String.eqb _ _); injection Hpost as <- <-; discriminate.
  - intros id t1 t2 coll. eexists. split; [by vm_compute|]. done.
Qed.

Lemma getApparentPower_spec_witness :
  getApparentPower
    {| _id := 7; voltage := Undefined; current := Undefined;
       power := Num 460; energy := Undefined; frequency := Undefined;
       powerFactor := Num 0; timestamp := 1000; createdAt := 1001;
       updatedAt := 1001; __v := 0; extra := ∅ |} = (460 / abs 0)%float ∧
  (is_zero 0 = true →
   is_finite
     (getApparentPower
        {| _id := 7; voltage := Undefined; current := Undefined;
           power := Num 460; energy := Undefined; frequency := Undefined;
           powerFactor := Num 0; timestamp := 1000; createdAt := 1001;
           updatedAt := 1001; __v := 0; extra := ∅ |}) = false).
Proof.
  apply (proj1 (@getApparentPower_spec example_runtime)); reflexivity.
Defined.

(** C8. When saving fails in [POST /], the handler answers 400 with
    "Validation failed" and the list of the per-path messages if the error
    is named ValidationError, and 500 with the generic message and the
    error's own message otherwise; the collection is unchanged.  A value
    that cannot be cast to its path's type makes [save] fail with such a
    ValidationError, carrying one message per failing path; a failure of
    the store is passed on as it is.  Both asynchronous routes always send
    a response: no error escapes a route. *)
Theorem post_root_failure_responses `{Runtime} :
  (∀ body env coll e,
     saved body env = Throw e →
     (name e = "ValidationError" →
      post_root body env coll =
        Ok ({| code := 400;
               payload := ValidationFailed "Validation failed"
                            (snd <$> errors e) |}, coll)) ∧
     (name e ≠ "ValidationError" →
      post_root body env coll =
        Ok ({| code := 500;
               payload := Failure "Internal server error while saving data"
                            (message e) |}, coll))) ∧
  (∀ body env,
     let errs := (new_EnergyMeter (build_energyData body) (fresh_id env)
                    (now_new env)).2 in
     (errs ≠ [] → saved body env = Throw (validationError errs)) ∧
     (∀ e, errs = [] → save_fault env = Some e → saved body env = Throw e)) ∧
  (∀ body env coll, ∃ r coll', post_root body env coll = Ok (r, coll')) ∧
  (∀ q fault coll, ∃ r, get_readings q fault coll = Ok r) ∧
  (∀ q fault coll e,
     find_sorted_limit (readings_filter q) (readings_limit q) fault coll
       = Throw e →
     get_readings q fault coll =
       Ok {| code := 500;
             payload := Failure "Internal server error while retrieving data"
                          (message e) |}) ∧
  (∀ MONGODB_URI s ev e, (step MONGODB_URI s ev).2 ≠ Some (Throw e)).
Proof.
  split; [|split; [|split; [|split; [|split]]]].
  - intros body env coll e Hs. rewrite (post_root_failed _ _ _ _ Hs).
    split.
    + intros ->. done.
    + intros Hne. by destruct (String.eqb_spec (name e) "ValidationError").
  - intros body env errs. subst errs. unfold saved.
    destruct (new_EnergyMeter _ _ _) as [d errs]. simpl. split.
    + by destruct errs.
    + by intros e -> ->.
  - apply post_root_total.
  - apply get_readings_total.
  - intros q fault coll e He. by rewrite get_readings_eq, He.
  - apply step_never_throws.
Qed.

Lemma post_root_failure_responses_witness :
  @post_root example_runtime bad_body (env_ok 7 1000 1001) [] =
    Ok ({| code := 400;
           payload := ValidationFailed "Validation failed"
                        ["Cast to Number failed at path voltage"] |}, []).
Proof.
  apply (proj1 (proj1 (@post_root_failure_responses example_runtime)
                  bad_body (env_ok 7 1000 1001) [] _ eq_refl)).
  reflexivity.
Defined.

(** ** GET /readings and the range query *)

Global Instance newer_first_total : Total newer_first.
Proof. intros a b. unfold newer_first. lia. Qed.

Global Instance newer_first_trans : Transitive newer_first.
Proof. intros a b c. unfold newer_first. lia. Qed.

Lemma sort_desc_sorted l : StronglySorted newer_first (sort_desc l).
Proof. apply StronglySorted_merge_sort; apply _. Qed.

Lemma sort_desc_perm l : sort_desc l ≡ₚ l.
Proof. apply merge_sort_Permutation. Qed.

Lemma StronglySorted_take (l : list EnergyMeter) k :
  StronglySorted newer_first l → StronglySorted newer_first (take k l).
Proof.
  intros Hl. rewrite <- (take_drop k l) in Hl.
  by apply StronglySorted_app_1_l in Hl.
Qed.

Lemma limit_take n l :
  limit n l = take (if n =? 0 then length l else Z.to_nat (Z.abs n)) l.
Proof. unfold limit. destruct (n =? 0); [by rewrite take_ge|done]. Qed.

Lemma limit_sorted n l :
  StronglySorted newer_first l → StronglySorted newer_first (limit n l).
Proof. rewrite limit_take. apply StronglySorted_take. Qed.

Lemma limit_subseteq n l : limit n l ⊆ l.
Proof. rewrite limit_take. apply subseteq_take. Qed.

Lemma limit_length n l :
  n ≠ 0 → Z.of_nat (length (limit n l)) ≤ Z.abs n.
Proof.
  intros Hn. unfold limit. destruct (Z.eqb_spec n 0); [done|].
  rewrite length_take. lia.
Qed.

Lemma match_deviceId_spec f d :
  match_deviceId f d = true ↔
    ∀ x, f_deviceId f = Some x → extra d !! "deviceId" = Some x.
Proof.
  unfold match_deviceId. destruct (f_deviceId f) as [x|]; [|done].
  destruct (extra d !! "deviceId") as [y|].
  - destruct (String.eqb_spec y x) as [->|Hne]; split.
    + by intros _ ? [= ->].
    + done.
    + done.
    + intros Hx. specialize (Hx _ eq_refl). congruence.
  - split; [done|]. intros Hx. by specialize (Hx _ eq_refl).
Qed.

Lemma match_gte_spec f d :
  match_gte f d = true ↔ ∀ a, f_gte f = Some (Date a) → a ≤ timestamp d.
Proof.
  unfold match_gte. destruct (f_gte f) as [[a|]|]; try done.
  rewrite Z.leb_le. split; [by intros ? ? [= <-]|]. intros Ha. by apply Ha.
Qed.

Lemma match_lte_spec f d :
  match_lte f d = true ↔ ∀ b, f_lte f = Some (Date b) → timestamp d ≤ b.
Proof.
  unfold match_lte. destruct (f_lte f) as [[b|]|]; try done.
  rewrite Z.leb_le. split; [by intros ? ? [= <-]|]. intros Hb. by apply Hb.
Qed.

Lemma matches_spec f d :
  matches f d = true ↔
    (∀ x, f_deviceId f = Some x → extra d !! "deviceId" = Some x) ∧
    (∀ a, f_gte f = Some (Date a) → a ≤ timestamp d) ∧
    (∀ b, f_lte f = Some (Date b) → timestamp d ≤ b).
Proof.
  unfold matches.
  rewrite !andb_true_iff, match_deviceId_spec, match_gte_spec, match_lte_spec.
  tauto.
Qed.

Section readings.
Context `{Runtime}.

Lemma find_sorted_ok f fault coll l :
  find_sorted f fault coll = Ok l →
  filter_castable f = true ∧ fault = None ∧
  l = sort_desc (List.filter (matches f) coll).
Proof.
  unfold find_sorted. destruct (filter_castable f); simpl; [|done].
  destruct fault; [done|]. by intros [= <-].
Qed.

Lemma find_sorted_limit_ok f n fault coll l :
  find_sorted_limit f n fault coll = Ok l →
  ∃ k, n = Some k ∧ filter_castable f = true ∧ fault = None ∧
       l = limit k (sort_desc (List.filter (matches f) coll)).
Proof.
  unfold find_sorted_limit.
  destruct (find_sorted f fault coll) as [rs|e] eqn:Hf; simpl; [|done].
  apply find_sorted_ok in Hf as (? & ? & ->).
  destruct n as [k|]; [|done]. intros [= <-]. eauto.
Qed.

Lemma elem_of_matched f coll d :
  d ∈ sort_desc (List.filter (matches f) coll) ↔ d ∈ coll ∧ matches f d = true.
Proof.
  rewrite sort_desc_perm, !list_elem_of_In. apply filter_In.
Qed.

(** What [res_readings] is, for any response of the route. *)
Lemma get_readings_data q fault coll r :
  get_readings q fault coll = Ok r →
  (code r = 200 ∧
   ∃ k, readings_limit q = Some k ∧
        filter_castable (readings_filter q) = true ∧ fault = None ∧
        payload r = Readings "Energy meter readings retrieved successfully"
                      (length (res_readings r)) (res_readings r) ∧
        res_readings r =
          limit k (sort_desc (List.filter (matches (readings_filter q)) coll)))
  ∨ (code r = 500 ∧ res_readings r = []).
Proof.
  rewrite get_readings_eq.
  destruct (find_sorted_limit _ _ _ _) as [l|e] eqn:Hf; intros [= <-].
  - left. split; [done|].
    apply find_sorted_limit_ok in Hf as (k & ? & ? & ? & ->). eauto 10.
  - by right.
Qed.

Lemma get_readings_matched q fault coll r :
  get_readings q fault coll = Ok r →
  Forall (λ d, d ∈ coll ∧ matches (readings_filter q) d = true) (res_readings r).
Proof.
  intros [(_ & k & _ & _ & _ & _ & ->) | (_ & ->)]%get_readings_data; [|done].
  apply Forall_forall. intros d Hd%limit_subseteq. by apply elem_of_matched.
Qed.
End readings.

Lemma filter_all {A} (f : A → bool) (l : list A) :
  (∀ x, f x = true) → List.filter f l = l.
Proof.
  intros Hf. induction l as [|x l IH]; simpl; [done|]. by rewrite Hf, IH.
Qed.

Section readings_ok.
Context `{Runtime}.

(** The route on a request whose filter can be cast and whose limit is a
    number, when the store does not fail. *)
Lemma get_readings_ok q coll n :
  readings_limit q = Some n →
  filter_castable (readings_filter q) = true →
  get_readings q None coll =
    Ok {| code := 200;
          payload :=
            Readings "Energy meter readings retrieved successfully"
              (length (limit n (sort_desc
                 (List.filter (matches (readings_filter q)) coll))))
              (limit n (sort_desc
                 (List.filter (matches (readings_filter q)) coll))) |}.
Proof.
  intros Hn Hc. rewrite get_readings_eq.
  unfold find_sorted_limit, find_sorted. by rewrite Hn, Hc.
Qed.

Lemma get_readings_sorted q fault coll r :
  get_readings q fault coll = Ok r →
  StronglySorted newer_first (res_readings r).
Proof.
  intros [(_ & k & _ & _ & _ & _ & ->) | (_ & ->)]%get_readings_data.
  - apply limit_sorted, sort_desc_sorted.
  - constructor.
Qed.
End readings_ok.

(** C4 (as amended). [GET /readings] returns matched records, ordered by
    timestamp descending (non-increasing).  When [limit] coerces to an
    integer [n] other than 0 the response holds at most [|n|] records, the
    first [|n|] in that order; [limit=0] sets no cap; an absent [limit]
    is 50, so without query parameters at most 50 records come back.  With
    [limit=2] and 5 stored records the response holds exactly two records,
    each at least as recent as every record left out. *)
Theorem get_readings_sorted_limited `{Runtime} :
  (∀ q fault coll r,
     get_readings q fault coll = Ok r →
     StronglySorted newer_first (res_readings r) ∧
     Forall (λ d, d ∈ coll ∧ matches (readings_filter q) d = true)
       (res_readings r)) ∧
  (∀ q coll n,
     readings_limit q = Some n →
     filter_castable (readings_filter q) = true →
     ∃ r, get_readings q None coll = Ok r ∧
          code r = 200 ∧
          res_count r = Some (length (res_readings r)) ∧
          res_readings r =
            limit n (sort_desc (List.filter (matches (readings_filter q)) coll)) ∧
          (n ≠ 0 → Z.of_nat (length (res_readings r)) ≤ Z.abs n) ∧
          (n = 0 → res_readings r ≡ₚ List.filter (matches (readings_filter q)) coll)) ∧
  (∀ q, q_limit q = None → readings_limit q = Some 50) ∧
  (∀ coll,
     ∃ r, get_readings no_params None coll = Ok r ∧
          code r = 200 ∧
          res_readings r = take 50 (sort_desc coll) ∧
          (length (res_readings r) ≤ 50)%nat) ∧
  (∀ coll,
     parseInt "2" = Some 2 →
     length coll = 5%nat →
     ∃ r, get_readings (limit_only "2") None coll = Ok r ∧
          code r = 200 ∧
          res_readings r = take 2 (sort_desc coll) ∧
          length (res_readings r) = 2%nat ∧
          sort_desc coll ≡ₚ coll ∧
          Forall (λ x, Forall (λ y, timestamp y ≤ timestamp x)
                         (drop 2 (sort_desc coll)))
            (res_readings r)).
Proof.
  split; [|split; [|split; [|split]]].
  - intros q fault coll r Hr. split.
    + by eapply get_readings_sorted.
    + by eapply get_readings_matched.
  - intros q coll n Hn Hc. eexists. split; [by apply get_readings_ok|].
    simpl. repeat split; try done.
    + apply limit_length.
    + intros ->. unfold res_readings; simpl. apply sort_desc_perm.
  - intros q Hq. unfold readings_limit. by rewrite Hq.
  - intros coll. eexists. split; [by apply get_readings_ok|].
    unfold res_readings; simpl.
    rewrite filter_all by done. change (limit 50 ?l) with (take 50 l).
    repeat split. rewrite length_take. lia.
  - intros coll H2 Hlen. eexists. split; [by apply get_readings_ok|].
    unfold res_readings; simpl.
    rewrite filter_all by done. change (limit 2 ?l) with (take 2 l).
    repeat split.
    + rewrite length_take, (Permutation_length (sort_desc_perm coll)). lia.
    + apply sort_desc_perm.
    + apply Forall_forall. intros x Hx. apply Forall_forall. intros y Hy.
      pose proof (sort_desc_sorted coll) as Hs.
      rewrite <- (take_drop 2 (sort_desc coll)) in Hs.
      apply (StronglySorted_app_1_elem_of _ _ _ _ _ Hs Hx Hy).
Qed.

Lemma get_readings_sorted_limited_witness :
  ∃ r, @get_readings example_runtime (limit_only "2") None five_readings = Ok r ∧
       code r = 200 ∧
       res_readings r = take 2 (sort_desc five_readings) ∧
       length (res_readings r) = 2%nat ∧
       sort_desc five_readings ≡ₚ five_readings ∧
       Forall (λ x, Forall (λ y, timestamp y ≤ timestamp x)
                      (drop 2 (sort_desc five_readings)))
         (res_readings r).
Proof.
  apply (proj2 (proj2 (proj2 (proj2 (@get_readings_sorted_limited example_runtime))))
           five_readings); reflexivity.
Defined.

(** C4 as stated fails: with [limit=0] and five stored records the response
    holds all five, which is not capped at 0. *)
Lemma limit_zero_counterexample :
  ¬ (∀ r n,
       @get_readings example_runtime (limit_only "0") None five_readings = Ok r →
       @parseInt example_runtime "0" = Some n →
       Z.of_nat (length (res_readings r)) ≤ n).
Proof.
  intros Hc. specialize (Hc _ 0 eq_refl eq_refl). vm_compute in Hc. by apply Hc.
Qed.

(** C5. For a non-empty [deviceId] parameter [X], every record that
    [GET /readings] returns is a stored record whose [deviceId] is [X]. *)
Theorem get_readings_deviceId `{Runtime} q fault coll X r :
  q_deviceId q = Some X →
  X ≠ "" →
  get_readings q fault coll = Ok r →
  Forall (λ d, d ∈ coll ∧ extra d !! "deviceId" = Some X) (res_readings r).
Proof.
  intros HX Hne Hr. apply get_readings_matched in Hr.
  eapply Forall_impl; [exact Hr|]. intros d [Hd Hm]. split; [done|].
  apply matches_spec in Hm as (Hdev & _ & _). apply Hdev.
  unfold readings_filter; simpl. rewrite HX; simpl. unfold truthy_string.
  by destruct (String.eqb_spec X "").
Qed.

Lemma get_readings_deviceId_witness :
  ∃ r, @get_readings example_runtime (device_only "meter-1") None five_readings
         = Ok r ∧
       length (res_readings r) = 2%nat ∧
       Forall (λ d, d ∈ five_readings ∧ extra d !! "deviceId" = Some "meter-1")
         (res_readings r).
Proof.
  eexists. split; [reflexivity|]. split; [reflexivity|].
  apply (@get_readings_deviceId example_runtime (device_only "meter-1") None
           five_readings "meter-1"); [reflexivity|discriminate|reflexivity].
Defined.

(** C6. For parameters [startDate=A] and [endDate=B] that are dates [a]
    and [b], every record that [GET /readings] returns is a stored record
    whose timestamp [t] satisfies [a ≤ t ≤ b].  [getReadingsInRange]
    returns, ordered by timestamp descending, exactly the stored readings
    with timestamp in [[a, b]] (each as often as it is stored), restricted
    to those of the given device when a non-empty [deviceId] is passed. *)
Theorem range_queries `{Runtime} :
  (∀ q fault coll A B a b r,
     q_startDate q = Some A → q_endDate q = Some B →
     A ≠ "" → B ≠ "" →
     Date_of_string A = Date a → Date_of_string B = Date b →
     get_readings q fault coll = Ok r →
     Forall (λ d, d ∈ coll ∧ a ≤ timestamp d ≤ b) (res_readings r)) ∧
  (∀ a b deviceId coll,
     ∃ l, getReadingsInRange (Date a) (Date b) deviceId None coll = Ok l ∧
          StronglySorted newer_first l ∧
          l ≡ₚ List.filter (matches (range_filter a b deviceId)) coll ∧
          ∀ d, d ∈ l ↔
               d ∈ coll ∧ a ≤ timestamp d ≤ b ∧
               (∀ x, deviceId = Some x → x ≠ "" →
                     extra d !! "deviceId" = Some x)).
Proof.
  split.
  - intros q fault coll A B a b r HA HB HAne HBne Ha Hb Hr.
    apply get_readings_matched in Hr.
    eapply Forall_impl; [exact Hr|]. intros d [Hd Hm]. split; [done|].
    apply matches_spec in Hm as (_ & Hge & Hle).
    assert (HtA : truthy_string A = true).
    { unfold truthy_string. by destruct (String.eqb_spec A ""). }
    assert (HtB : truthy_string B = true).
    { unfold truthy_string. by destruct (String.eqb_spec B ""). }
    split.
    + apply Hge. unfold readings_filter; simpl. rewrite HA; simpl.
      by rewrite HtA, Ha.
    + apply Hle. unfold readings_filter; simpl. rewrite HB; simpl.
      by rewrite HtB, Hb.
  - intros a b deviceId coll.
    exists (sort_desc (List.filter (matches (range_filter a b deviceId)) coll)).
    split; [|split; [|split]].
    + unfold getReadingsInRange, range_filter.
      by destruct (truthy_opt deviceId).
    + apply sort_desc_sorted.
    + apply sort_desc_perm.
    + intros d. rewrite elem_of_matched, matches_spec.
      unfold range_filter; simpl. split.
      * intros (Hd & Hdev & Hge & Hle). split; [done|]. split.
        { split; [by apply Hge|by apply Hle]. }
        intros x -> Hx. apply Hdev. simpl. unfold truthy_string.
        by destruct (String.eqb_spec x "").
      * intros (Hd & [Hge Hle] & Hdev). split; [done|]. split; [|split].
        { intros x. destruct deviceId as [y|]; simpl; [|done].
          unfold truthy_string. destruct (String.eqb_spec y ""); simpl; [done|].
          intros [= ->]. by apply Hdev. }
        { by intros ? [= <-]. }
        { by intros ? [= <-]. }
Qed.

Lemma range_queries_witness :
  ∃ r, @get_readings example_runtime
         (range_only "2024-01-01T00:00:00.000Z" "2024-01-02T00:00:00.000Z")
         None
         (reading_at 6 1704000000000 None :: five_readings ++
          [reading_at 7 1704200000000 None]) = Ok r ∧
       length (res_readings r) = 5%nat ∧
       Forall (λ d, d ∈ reading_at 6 1704000000000 None :: five_readings ++
                          [reading_at 7 1704200000000 None] ∧
                    1704067200000 ≤ timestamp d ≤ 1704153600000)
         (res_readings r).
Proof.
  eexists. split; [reflexivity|]. split; [reflexivity|].
  apply (proj1 (@range_queries example_runtime)
           (range_only "2024-01-01T00:00:00.000Z" "2024-01-02T00:00:00.000Z")
           None _ "2024-01-01T00:00:00.000Z" "2024-01-02T00:00:00.000Z");
    first [reflexivity | discriminate].
Defined.

(** * Further properties *)

(** ** The object built from the body *)

Lemma assign_defined_lookup src tgt (body e : gmap string json) k :
  assign_defined src tgt body e !! k =
    if decide (k = tgt)
    then match body !! src with
         | Some x => Some x
         | None => e !! k
         end
    else e !! k.
Proof.
  unfold assign_defined. destruct (body !! src) as [x|]; case_decide; subst;
    try done.
  - by rewrite lookup_insert_eq.
  - by rewrite lookup_insert_ne by congruence.
Qed.

Lemma build_energyData_lookup body :
  Forall (λ m, build_energyData body !! m.1.2 = body !! m.1.1) numeric_members.
Proof.
  unfold build_energyData, numeric_members.
  repeat constructor; simpl; rewrite !assign_defined_lookup;
    repeat case_decide; try congruence;
    rewrite ?lookup_empty; by destruct (body !! _).
Qed.

Section post_more.
Context `{Runtime}.

Lemma set_path_same (obj obj' : gmap string json) path :
  obj !! path = obj' !! path → set_path obj path = set_path obj' path.
Proof. unfold set_path. by intros ->. Qed.

Lemma set_path_errors (obj : gmap string json) path :
  (set_path obj path).2 = [] ↔
  match obj !! path with
  | Some v => is_Some (castNumber v)
  | None => True
  end.
Proof.
  unfold set_path. destruct (obj !! path) as [v|]; [|done].
  destruct (castNumber v); simpl; split; try done;
    first [ by eexists | by intros [? [=]] ].
Qed.

Lemma set_path_value (obj : gmap string json) path :
  (set_path obj path).2 = [] →
  match obj !! path with
  | Some v => castNumber v = Some (set_path obj path).1
  | None => (set_path obj path).1 = Undefined
  end.
Proof.
  unfold set_path. destruct (obj !! path) as [v|]; [|done].
  by destruct (castNumber v).
Qed.

Lemma new_EnergyMeter_eq obj id now :
  new_EnergyMeter obj id now =
    ({| _id := id;
        voltage := (set_path obj "voltage").1;
        current := (set_path obj "current").1;
        power := (set_path obj "power").1;
        energy := (set_path obj "energy").1;
        frequency := (set_path obj "frequency").1;
        powerFactor := (set_path obj "powerFactor").1;
        timestamp := now; createdAt := now; updatedAt := now; __v := 0;
        extra := ∅ |},
     (set_path obj "voltage").2 ++ (set_path obj "current").2 ++
     (set_path obj "power").2 ++ (set_path obj "energy").2 ++
     (set_path obj "frequency").2 ++ (set_path obj "powerFactor").2).
Proof.
  unfold new_EnergyMeter.
  destruct (set_path obj "voltage"), (set_path obj "current"),
    (set_path obj "power"), (set_path obj "energy"),
    (set_path obj "frequency"), (set_path obj "powerFactor"). done.
Qed.

(** The cast errors of the constructor are empty exactly for a castable
    body. *)
Lemma castable_errors body id now :
  castable body = true ↔
  (new_EnergyMeter (build_energyData body) id now).2 = [].
Proof.
  rewrite new_EnergyMeter_eq. simpl. rewrite !app_nil, !set_path_errors.
  pose proof (build_energyData_lookup body) as Hl.
  unfold numeric_members in Hl.
  repeat (apply Forall_cons in Hl as [? Hl]). simpl in *.
  repeat match goal with Hx : build_energyData body !! _ = _ |- _ =>
    rewrite Hx; clear Hx end.
  unfold castable, numeric_members. simpl.
  rewrite !andb_true_iff.
  assert (Hb : ∀ o : option json,
             match o with
             | Some v => bool_decide (is_Some (castNumber v))
             | None => true
             end = true ↔
             match o with
             | Some v => is_Some (castNumber v)
             | None => True
             end).
  { intros [v|]; [apply bool_decide_eq_true|done]. }
  rewrite !Hb. tauto.
Qed.

Lemma saved_fields body env d :
  saved body env = Ok d →
  castable body = true ∧ save_fault env = None ∧
  d = {| _id := fresh_id env;
         voltage := (set_path (build_energyData body) "voltage").1;
         current := (set_path (build_energyData body) "current").1;
         power := (set_path (build_energyData body) "power").1;
         energy := (set_path (build_energyData body) "energy").1;
         frequency := (set_path (build_energyData body) "frequency").1;
         powerFactor := (set_path (build_energyData body) "powerFactor").1;
         timestamp := now_new env; createdAt := now_save env;
         updatedAt := now_save env; __v := 0; extra := ∅ |}.
Proof.
  rewrite (castable_errors body (fresh_id env) (now_new env)).
  unfold saved. rewrite new_EnergyMeter_eq. simpl.
  destruct (_ ++ _); [|discriminate].
  destruct (save_fault env); [discriminate|]. by intros [= <-].
Qed.

Lemma saved_castable body env :
  castable body = true → save_fault env = None → ∃ d, saved body env = Ok d.
Proof.
  intros Hc%(castable_errors body (fresh_id env) (now_new env)) Hf.
  unfold saved.
  destruct (new_EnergyMeter _ _ _) as [d errs]. simpl in *. subst errs.
  rewrite Hf. eauto.
Qed.

Lemma saved_not_castable body env :
  castable body = false →
  ∃ e, saved body env = Throw e ∧ name e = "ValidationError" ∧ errors e ≠ [].
Proof.
  intros Hc. unfold saved.
  destruct (new_EnergyMeter _ _ _) as [d errs] eqn:Hn.
  destruct errs as [|x errs].
  - assert (castable body = true); [|congruence].
    apply (castable_errors body (fresh_id env) (now_new env)). by rewrite Hn.
  - simpl. eauto.
Qed.
End post_more.

Section post_facts.
Context `{Runtime}.

Lemma saved_fault body env e :
  castable body = true → save_fault env = Some e → saved body env = Throw e.
Proof.
  intros Hc%(castable_errors body (fresh_id env) (now_new env)) Hf.
  unfold saved.
  destruct (new_EnergyMeter _ _ _) as [d errs]. simpl in *. subst errs.
  by rewrite Hf.
Qed.

Lemma saved_members body env d :
  saved body env = Ok d →
  Forall (λ m, match body !! m.1.1 with
               | Some v => castNumber v = Some (m.2 d)
               | None => m.2 d = Undefined
               end) numeric_members.
Proof.
  intros Hs. destruct (saved_fields _ _ _ Hs) as (Hc & _ & ->).
  apply (castable_errors body (fresh_id env) (now_new env)) in Hc.
  rewrite new_EnergyMeter_eq in Hc. simpl in Hc. rewrite !app_nil in Hc.
  destruct Hc as (E1 & E2 & E3 & E4 & E5 & E6).
  apply set_path_value in E1, E2, E3, E4, E5, E6.
  pose proof (build_energyData_lookup body) as Hl.
  unfold numeric_members in Hl.
  repeat (apply Forall_cons in Hl as [? Hl]). simpl in *.
  repeat match goal with Hx : build_energyData body !! _ = _ |- _ =>
    rewrite Hx in *; clear Hx end.
  unfold numeric_members. by repeat constructor.
Qed.

Lemma saved_same body body' env :
  Forall (λ m, body !! m.1.1 = body' !! m.1.1) numeric_members →
  saved body env = saved body' env.
Proof.
  intros Hb. unfold numeric_members in Hb.
  repeat (apply Forall_cons in Hb as [? Hb]). simpl in *.
  pose proof (build_energyData_lookup body) as Hl.
  pose proof (build_energyData_lookup body') as Hl'.
  unfold numeric_members in Hl, Hl'.
  repeat (apply Forall_cons in Hl as [? Hl]).
  repeat (apply Forall_cons in Hl' as [? Hl']). simpl in *.
  unfold saved. rewrite !new_EnergyMeter_eq.
  rewrite (set_path_same (build_energyData body) (build_energyData body') "voltage"),
    (set_path_same (build_energyData body) (build_energyData body') "current"),
    (set_path_same (build_energyData body) (build_energyData body') "power"),
    (set_path_same (build_energyData body) (build_energyData body') "energy"),
    (set_path_same (build_energyData body) (build_energyData body') "frequency"),
    (set_path_same (build_energyData body) (build_energyData body') "powerFactor")
    by congruence.
  done.
Qed.

Lemma post_root_of_saved body body' env coll :
  saved body env = saved body' env →
  post_root body env coll = post_root body' env coll.
Proof.
  intros Hs. destruct (saved body' env) as [d|e] eqn:Hs'.
  - by rewrite (post_root_saved _ _ _ _ Hs), (post_root_saved _ _ _ _ Hs').
  - by rewrite (post_root_failed _ _ _ _ Hs), (post_root_failed _ _ _ _ Hs').
Qed.
End post_facts.

(** X1. In a 201 response of [POST /] the stored record, which is the
    [data] of the response and the one record added to the collection, has
    the generated identifier as [_id] and [insertedId], the time of
    construction as [timestamp], and the time of the save as [createdAt]
    and [updatedAt].  Its six [Number] paths come from the members [vol],
    [current], [power], [energy], [frequency] and [pf] of the body: an
    absent member leaves the path undefined, a present one is stored as its
    cast, and a member that is a number is stored as that number. *)
Theorem post_root_stores_members `{Runtime} body env coll r coll' :
  post_root body env coll = Ok (r, coll') →
  code r = 201 →
  ∃ d, payload r = Saved "Energy meter data saved successfully" d
                     (fresh_id env) (now_new env) (res_apparentPower r) ∧
       coll' = coll ++ [d] ∧
       _id d = fresh_id env ∧ timestamp d = now_new env ∧
       createdAt d = now_save env ∧ updatedAt d = now_save env ∧
       Forall (λ m, match body !! m.1.1 with
                    | Some v => castNumber v = Some (m.2 d)
                    | None => m.2 d = Undefined
                    end) numeric_members ∧
       Forall (λ m, ∀ n, body !! m.1.1 = Some (JNum n) → m.2 d = Num n)
         numeric_members.
Proof.
  intros Hp Hc.
  destruct (post_root_created _ _ _ _ _ Hp Hc) as (d & Hs & Hd & Hcoll & Hap).
  pose proof (saved_members _ _ _ Hs) as Hm.
  destruct (saved_fields _ _ _ Hs) as (_ & _ & Heq).
  rewrite (post_root_saved _ _ _ _ Hs) in Hp. injection Hp as <- <-.
  exists d. split.
  { simpl. f_equal; by rewrite Heq. }
  split; [done|].
  repeat (split; [by rewrite Heq|]).
  split; [done|].
  eapply Forall_impl; [exact Hm|]. intros m Hcast n Hn.
  cbv beta in Hcast. rewrite Hn in Hcast.
  simpl in Hcast. destruct (is_nan n); congruence.
Qed.

Lemma post_root_stores_members_witness :
  ∃ r coll',
    @post_root example_runtime scenario_body (env_ok 7 1000 1001) []
      = Ok (r, coll') ∧
    ∃ d, payload r = Saved "Energy meter data saved successfully" d 7%N 1000
                       (res_apparentPower r) ∧
         coll' = [] ++ [d] ∧
         _id d = 7%N ∧ timestamp d = 1000 ∧
         createdAt d = 1001 ∧ updatedAt d = 1001 ∧
         Forall (λ m, match scenario_body !! m.1.1 with
                      | Some v => @castNumber example_runtime v = Some (m.2 d)
                      | None => m.2 d = Undefined
                      end) numeric_members ∧
         Forall (λ m, ∀ n, scenario_body !! m.1.1 = Some (JNum n) → m.2 d = Num n)
           numeric_members.
Proof.
  eexists _, _. split; [reflexivity|].
  apply (@post_root_stores_members example_runtime scenario_body
           (env_ok 7 1000 1001) []); reflexivity.
Defined.

(** X2. [POST /] answers 201 exactly when every numeric member present in
    the body can be cast and the store does not fail.  When some member
    cannot be cast it answers 400 with at least one message, whether or not
    the store would have failed.  Whenever the answer is not 201 the
    collection is unchanged. *)
Theorem post_root_status `{Runtime} body env coll r coll' :
  post_root body env coll = Ok (r, coll') →
  (code r = 201 ↔ castable body = true ∧ save_fault env = None) ∧
  (castable body = false →
   code r = 400 ∧
   ∃ msg details,
     payload r = ValidationFailed "Validation failed" (msg :: details)) ∧
  (code r ≠ 201 → coll' = coll).
Proof.
  intros Hp. destruct (castable body) eqn:Hc.
  - destruct (save_fault env) as [e|] eqn:Hf.
    + rewrite (post_root_failed _ _ _ _ (saved_fault _ _ _ Hc Hf)) in Hp.
      destruct (String.eqb _ _); injection Hp as <- <-; simpl;
        repeat split; try done; by intros [_ [=]].
    + destruct (saved_castable _ _ Hc Hf) as [d Hs].
      rewrite (post_root_saved _ _ _ _ Hs) in Hp. injection Hp as <- <-.
      simpl. repeat split; try done.
  - destruct (saved_not_castable _ env Hc) as (e & Hs & Hn & He).
    rewrite (post_root_failed _ _ _ _ Hs), Hn in Hp. simpl in Hp.
    injection Hp as <- <-. simpl. repeat split; try done.
    + by intros [[=] _].
    + destruct (errors e) as [|[p msg] errs]; [done|]. simpl. eauto.
Qed.

Lemma post_root_status_witness :
  ∃ r coll',
    @post_root example_runtime bad_body env_failing five_readings
      = Ok (r, coll') ∧
    code r = 400 ∧
    ∃ msg details,
      payload r = ValidationFailed "Validation failed" (msg :: details).
Proof.
  eexists _, _. split; [reflexivity|].
  apply (proj1 (proj2 (@post_root_status example_runtime bad_body env_failing
                         five_readings _ _ eq_refl))).
  reflexivity.
Defined.

(** X3. [POST /] reads only the members [vol], [current], [power],
    [energy], [frequency] and [pf]: two bodies that agree on these six give
    the same response and the same collection.  In particular [deviceId],
    [location] and any other member of the body have no effect on what is
    stored or returned. *)
Theorem post_root_ignores_other_members `{Runtime} body body' env coll :
  Forall (λ m, body !! m.1.1 = body' !! m.1.1) numeric_members →
  post_root body env coll = post_root body' env coll.
Proof. intros Hb. by apply post_root_of_saved, saved_same. Qed.

Lemma post_root_ignores_other_members_witness :
  @post_root example_runtime tagged_body (env_ok 7 1000 1001) five_readings =
  @post_root example_runtime plain_body (env_ok 7 1000 1001) five_readings.
Proof.
  apply (@post_root_ignores_other_members example_runtime tagged_body
           plain_body).
  by repeat constructor.
Defined.

(** ** The collection and the connector over whole runs *)

Section runs.
Context `{Runtime}.
Variable MONGODB_URI : option string.

Lemma post_root_collection body env coll r coll' :
  post_root body env coll = Ok (r, coll') →
  coll' = coll ∨ ∃ d, coll' = coll ++ [d].
Proof.
  destruct (saved body env) as [d|e] eqn:Hs.
  - rewrite (post_root_saved _ _ _ _ Hs). intros [= <- <-]. eauto.
  - rewrite (post_root_failed _ _ _ _ Hs).
    destruct (String.eqb _ _); intros [= <- <-]; auto.
Qed.

Lemma step_collection s ev :
  collection (step MONGODB_URI s ev).1 = collection s ∨
  ∃ body env d, ev = PostRoot body env ∧
                collection (step MONGODB_URI s ev).1 = collection s ++ [d].
Proof.
  destruct ev as [[]| | | | now | body env | q fault]; simpl; auto.
  destruct (post_root body env (collection s)) as [[r coll]|e] eqn:Hp; auto.
  destruct (post_root_collection _ _ _ _ _ Hp) as [->|[d ->]]; simpl; eauto 6.
Qed.

Lemma step_error_consistent s ev :
  ((mongoConnectionStatus s = "Connected" → mongoError s = None) ∧
   (mongoConnectionStatus s = "Failed" ∨ mongoConnectionStatus s = "Error" →
    is_Some (mongoError s))) →
  (mongoConnectionStatus (step MONGODB_URI s ev).1 = "Connected" →
   mongoError (step MONGODB_URI s ev).1 = None) ∧
  (mongoConnectionStatus (step MONGODB_URI s ev).1 = "Failed" ∨
   mongoConnectionStatus (step MONGODB_URI s ev).1 = "Error" →
   is_Some (mongoError (step MONGODB_URI s ev).1)).
Proof.
  intros [Hc Hf].
  destruct ev as [[[]|e]| | |e| now | body env | q fault]; simpl;
    try (split; [try done|]; intros [?|?]; by eauto); auto.
  destruct (post_root body env (collection s)) as [[r coll]|e]; auto.
Qed.
End runs.

(** X4. The service only ever appends to the collection: an event other
    than a [POST /] request leaves it as it is, a [POST /] request leaves it
    as it is or adds one record at its end, and after any run the initial
    collection is a prefix of the current one, so no stored record is
    changed or removed. *)
Theorem collection_append_only `{Runtime} (MONGODB_URI : option string) :
  (∀ s ev,
     collection (step MONGODB_URI s ev).1 = collection s ∨
     ∃ body env d, ev = PostRoot body env ∧
                   collection (step MONGODB_URI s ev).1 = collection s ++ [d]) ∧
  (∀ s evs, collection s `prefix_of` collection (run MONGODB_URI s evs)).
Proof.
  split; [apply step_collection|].
  intros s evs. induction evs as [|ev evs IH] using rev_ind; [done|].
  rewrite run_snoc. etrans; [exact IH|].
  destruct (step_collection MONGODB_URI (run MONGODB_URI s evs) ev)
    as [->|(_ & _ & d & _ & ->)]; [done|].
  by apply prefix_app_r.
Qed.

(** X5. In every state reachable from the initial one, the status Connected
    goes with a null last error, and the statuses Failed and Error go with a
    recorded error; so [GET /] never shows an error member next to the
    status Connected. *)
Theorem connector_error_consistent `{Runtime} (MONGODB_URI : option string)
    (coll : list EnergyMeter) (evs : list event) (now : Z) :
  (mongoConnectionStatus (run MONGODB_URI (init coll) evs) = "Connected" →
   mongoError (run MONGODB_URI (init coll) evs) = None) ∧
  (mongoConnectionStatus (run MONGODB_URI (init coll) evs) = "Failed" ∨
   mongoConnectionStatus (run MONGODB_URI (init coll) evs) = "Error" →
   is_Some (mongoError (run MONGODB_URI (init coll) evs))) ∧
  (∀ m, res_mongodb (get_root MONGODB_URI now (run MONGODB_URI (init coll) evs))
        = Some m →
        info_status m = "Connected" → info_error m = None).
Proof.
  assert (Hinv :
    (mongoConnectionStatus (run MONGODB_URI (init coll) evs) = "Connected" →
     mongoError (run MONGODB_URI (init coll) evs) = None) ∧
    (mongoConnectionStatus (run MONGODB_URI (init coll) evs) = "Failed" ∨
     mongoConnectionStatus (run MONGODB_URI (init coll) evs) = "Error" →
     is_Some (mongoError (run MONGODB_URI (init coll) evs)))).
  { induction evs as [|ev evs IH] using rev_ind.
    - simpl. split; [done|]. by intros [?|?].
    - rewrite run_snoc. by apply step_error_consistent. }
  destruct Hinv as [Hc Hf]. split; [done|]. split; [done|].
  intros m. unfold get_root, res_mongodb. simpl.
  destruct (truthy_opt (mongoError _)) eqn:Ht; intros [= <-]; simpl; [|done].
  intros Hs. by rewrite (Hc Hs) in Ht.
Qed.

(** ** More on the apparent power *)

Lemma SFabs_opp x : SFabs (SFopp x) = SFabs x.
Proof. by destruct x. Qed.

Lemma abs_opp q : abs (- q) = abs q.
Proof.
  apply Prim2SF_inj. by rewrite !abs_spec, opp_spec, SFabs_opp.
Qed.

Lemma is_nan_SF x : Prim2SF x = S754_nan → is_nan x = true.
Proof. intros Hx. unfold is_nan. by rewrite FloatAxioms.eqb_spec, Hx. Qed.

(** X6. The apparent power does not depend on the sign of the power
    factor: a reading and the same reading with the opposite power factor
    have the same apparent power. *)
Theorem getApparentPower_sign (d : EnergyMeter) (q : float) :
  powerFactor d = Num q →
  getApparentPower (with_powerFactor (Num (- q)) d) = getApparentPower d.
Proof.
  intros Hq. unfold getApparentPower. rewrite Hq. simpl. by rewrite abs_opp.
Qed.

Lemma getApparentPower_sign_witness :
  getApparentPower (with_powerFactor (Num (- 0.5)) powered_reading)
  = getApparentPower powered_reading ∧
  getApparentPower powered_reading = 920%float.
Proof.
  split; [|reflexivity].
  apply (getApparentPower_sign powered_reading 0.5). reflexivity.
Defined.

(** X7. On a reading that lacks [power] or [powerFactor] the method
    [getApparentPower] does not fail: it returns NaN. *)
Theorem getApparentPower_missing (d : EnergyMeter) :
  power d = Undefined ∨ powerFactor d = Undefined →
  is_nan (getApparentPower d) = true.
Proof.
  intros Hd. apply is_nan_SF. unfold getApparentPower. rewrite div_spec.
  destruct Hd as [-> | ->].
  - reflexivity.
  - change (Prim2SF (abs (ToNumber Undefined))) with S754_nan.
    by destruct (Prim2SF (ToNumber (power d))).
Qed.

Lemma getApparentPower_missing_witness :
  is_nan (getApparentPower (reading_at 1 1000 None)) = true.
Proof.
  apply (getApparentPower_missing (reading_at 1 1000 None)). by left.
Defined.

(** ** More on GET /readings *)

Lemma filter_perm {A} (f : A → bool) (l1 l2 : list A) :
  l1 ≡ₚ l2 → List.filter f l1 ≡ₚ List.filter f l2.
Proof.
  induction 1 as [|x l1 l2 _ IH|x y l|l1 l2 l3 _ IH1 _ IH2]; simpl.
  - done.
  - destruct (f x); by rewrite IH.
  - destruct (f x), (f y); try done. apply perm_swap.
  - by etrans.
Qed.

Lemma limit_all n (l : list EnergyMeter) :
  n = 0 ∨ Z.of_nat (length l) ≤ Z.abs n → limit n l = l.
Proof.
  intros Hn. unfold limit. destruct (Z.eqb_spec n 0); [done|].
  apply take_ge. lia.
Qed.

Lemma limit_pos n (l : list EnergyMeter) :
  0 < n → limit n l = take (Z.to_nat n) l.
Proof.
  intros Hn. unfold limit. destruct (Z.eqb_spec n 0); [lia|].
  by rewrite Z.abs_eq by lia.
Qed.

Lemma timestamps_sorted (l : list EnergyMeter) :
  StronglySorted newer_first l →
  StronglySorted (λ a b : Z, b ≤ a) (timestamp <$> l).
Proof. by apply StronglySorted_fmap. Qed.

Lemma timestamps_unique (l1 l2 : list EnergyMeter) :
  l1 ≡ₚ l2 → timestamp <$> sort_desc l1 = timestamp <$> sort_desc l2.
Proof.
  intros Hl.
  apply (StronglySorted_unique_strong (λ a b : Z, b ≤ a)).
  - intros. lia.
  - apply timestamps_sorted, sort_desc_sorted.
  - apply timestamps_sorted, sort_desc_sorted.
  - by rewrite !sort_desc_perm, Hl.
Qed.

Section readings_more.
Context `{Runtime}.

Lemma readings_filter_spec q d :
  matches (readings_filter q) d = true ↔
    (∀ X, q_deviceId q = Some X → X ≠ "" → extra d !! "deviceId" = Some X) ∧
    (∀ A a, q_startDate q = Some A → A ≠ "" → Date_of_string A = Date a →
            a ≤ timestamp d) ∧
    (∀ B b, q_endDate q = Some B → B ≠ "" → Date_of_string B = Date b →
            timestamp d ≤ b).
Proof.
  rewrite matches_spec. unfold readings_filter; simpl.
  assert (Ht : ∀ s, truthy_string s = true ↔ s ≠ "").
  { intros s. unfold truthy_string.
    destruct (String.eqb_spec s ""); simpl; split; congruence. }
  split.
  - intros (Hd & Hg & Hl). split; [|split].
    + intros X HX HX'%Ht. apply Hd. rewrite HX. simpl. by rewrite HX'.
    + intros A a HA HA'%Ht Ha. apply Hg. rewrite HA. simpl. by rewrite HA', Ha.
    + intros B b HB HB'%Ht Hb. apply Hl. rewrite HB. simpl. by rewrite HB', Hb.
  - intros (Hd & Hg & Hl). split; [|split].
    + intros X. destruct (q_deviceId q) as [Y|]; simpl; [|done].
      destruct (truthy_string Y) eqn:HY; [|done].
      intros [= ->]. apply Hd; [done|]. by apply Ht.
    + intros a. destruct (q_startDate q) as [A|]; simpl; [|done].
      destruct (truthy_string A) eqn:HA; [|done]. simpl.
      intros [= Ha]. eapply Hg; [done| |done]. by apply Ht.
    + intros b. destruct (q_endDate q) as [B|]; simpl; [|done].
      destruct (truthy_string B) eqn:HB; [|done]. simpl.
      intros [= Hb]. eapply Hl; [done| |done]. by apply Ht.
Qed.

Lemma drop_empty_filter q :
  readings_filter (drop_empty_params q) = readings_filter q.
Proof.
  unfold readings_filter, drop_empty_params, drop_empty; simpl.
  f_equal.
  - by destruct (truthy_opt (q_deviceId q)) eqn:E; rewrite ?E.
  - by destruct (truthy_opt (q_startDate q)) eqn:E; rewrite ?E.
  - by destruct (truthy_opt (q_endDate q)) eqn:E; rewrite ?E.
Qed.
End readings_more.

Lemma filter_none {A} (f : A → bool) (l : list A) :
  (∀ x, f x = false) → List.filter f l = [].
Proof.
  intros Hf. induction l as [|x l IH]; simpl; [done|]. by rewrite Hf.
Qed.

Lemma matches_empty_range f a b d :
  f_gte f = Some (Date a) → f_lte f = Some (Date b) → b < a →
  matches f d = false.
Proof.
  intros Hg Hl Hab. unfold matches, match_gte, match_lte. rewrite Hg, Hl.
  destruct (Z.leb_spec a (timestamp d)), (Z.leb_spec (timestamp d) b);
    rewrite ?andb_false_r; try done. lia.
Qed.

Lemma timestamps_limit n (l1 l2 : list EnergyMeter) :
  l1 ≡ₚ l2 →
  timestamp <$> limit n (sort_desc l1) = timestamp <$> limit n (sort_desc l2).
Proof.
  intros Hl. rewrite !limit_take, !fmap_take.
  rewrite (timestamps_unique l1 l2 Hl).
  by rewrite (Permutation_length (sort_desc_perm l1)),
    (Permutation_length (sort_desc_perm l2)), (Permutation_length Hl).
Qed.

(** X8. When the limit does not cut the result ([limit=0], or at least as
    large as the number of matching records), [GET /readings] returns every
    stored record that satisfies the parameters given, each as often as it
    is stored: a non-empty [deviceId] must equal the record's, a non-empty
    [startDate] and a non-empty [endDate] bound the timestamp from below and
    from above, and a parameter that is absent or empty imposes nothing. *)
Theorem get_readings_complete `{Runtime} q coll n :
  readings_limit q = Some n →
  filter_castable (readings_filter q) = true →
  n = 0 ∨
  Z.of_nat (length (List.filter (matches (readings_filter q)) coll)) ≤ Z.abs n →
  ∃ r, get_readings q None coll = Ok r ∧
       code r = 200 ∧
       res_readings r ≡ₚ List.filter (matches (readings_filter q)) coll ∧
       res_count r =
         Some (length (List.filter (matches (readings_filter q)) coll)) ∧
       ∀ d, d ∈ res_readings r ↔
            d ∈ coll ∧
            (∀ X, q_deviceId q = Some X → X ≠ "" →
                  extra d !! "deviceId" = Some X) ∧
            (∀ A a, q_startDate q = Some A → A ≠ "" →
                    Date_of_string A = Date a → a ≤ timestamp d) ∧
            (∀ B b, q_endDate q = Some B → B ≠ "" →
                    Date_of_string B = Date b → timestamp d ≤ b).
Proof.
  intros Hn Hc Hlim. eexists. split; [by apply get_readings_ok|].
  unfold res_readings, res_count; simpl.
  rewrite limit_all
    by (by rewrite (Permutation_length (sort_desc_perm _))).
  split; [done|]. split; [apply sort_desc_perm|].
  split; [by rewrite (Permutation_length (sort_desc_perm _))|].
  intros d. by rewrite elem_of_matched, readings_filter_spec.
Qed.

Lemma get_readings_complete_witness :
  ∃ r, @get_readings example_runtime (device_only "meter-2") None five_readings
         = Ok r ∧
       code r = 200 ∧
       res_readings r ≡ₚ
         List.filter (matches (@readings_filter example_runtime
                                 (device_only "meter-2"))) five_readings ∧
       res_count r = Some 2%nat ∧
       ∀ d, d ∈ res_readings r ↔
            d ∈ five_readings ∧
            (∀ X, Some "meter-2" = Some X → X ≠ "" →
                  extra d !! "deviceId" = Some X) ∧
            (∀ A a, None = Some A → A ≠ "" →
                    @Date_of_string example_runtime A = Date a →
                    a ≤ timestamp d) ∧
            (∀ B b, None = Some B → B ≠ "" →
                    @Date_of_string example_runtime B = Date b →
                    timestamp d ≤ b).
Proof.
  apply (@get_readings_complete example_runtime (device_only "meter-2")
           five_readings 50); [reflexivity|reflexivity|right; by vm_compute].
Defined.

(** X9. A smaller positive limit returns a prefix of what a larger one
    returns: for the same other parameters and the same collection, the
    result for [limit=n] is the first [n] records of the result for
    [limit=m] when [0 < n ≤ m]. *)
Theorem get_readings_limit_prefix `{Runtime} q coll l1 l2 n m :
  parseInt l1 = Some n → parseInt l2 = Some m →
  0 < n ≤ m →
  filter_castable (readings_filter q) = true →
  ∃ r1 r2,
    get_readings (with_limit q (Some l1)) None coll = Ok r1 ∧
    get_readings (with_limit q (Some l2)) None coll = Ok r2 ∧
    res_readings r1 = take (Z.to_nat n) (res_readings r2).
Proof.
  intros H1 H2 Hnm Hc. eexists _, _.
  split; [by apply get_readings_ok|]. split; [by apply get_readings_ok|].
  unfold res_readings; simpl.
  change (readings_filter (with_limit q _)) with (readings_filter q).
  rewrite !limit_pos by lia. rewrite take_take. f_equal. lia.
Qed.

Lemma get_readings_limit_prefix_witness :
  ∃ r1 r2,
    @get_readings example_runtime (with_limit no_params (Some "2")) None
      five_readings = Ok r1 ∧
    @get_readings example_runtime (with_limit no_params (Some "4")) None
      five_readings = Ok r2 ∧
    res_readings r1 = take (Z.to_nat 2) (res_readings r2).
Proof.
  apply (@get_readings_limit_prefix example_runtime no_params five_readings
           "2" "4" 2 4); [reflexivity|reflexivity|lia|reflexivity].
Defined.

(** X10. An empty [deviceId], [startDate] or [endDate] parameter is treated
    as absent: the response is the same as for the query without it.  So
    [GET /readings?deviceId=&startDate=&endDate=] answers like
    [GET /readings]. *)
Theorem get_readings_empty_params `{Runtime} fault coll :
  (∀ q, get_readings q fault coll = get_readings (drop_empty_params q) fault coll) ∧
  get_readings empty_params fault coll = get_readings no_params fault coll.
Proof.
  assert (Hq : ∀ q,
    get_readings q fault coll = get_readings (drop_empty_params q) fault coll).
  { intros q. by rewrite !get_readings_eq, drop_empty_filter. }
  split; [done|]. by rewrite (Hq empty_params).
Qed.

(** X11. A range whose start is after its end matches nothing:
    [getReadingsInRange] returns the empty list, and [GET /readings] with
    such [startDate] and [endDate] answers 200 with count 0 and no data. *)
Theorem empty_range `{Runtime} :
  (∀ a b deviceId coll,
     b < a →
     getReadingsInRange (Date a) (Date b) deviceId None coll = Ok []) ∧
  (∀ q coll A B a b n,
     q_startDate q = Some A → q_endDate q = Some B →
     A ≠ "" → B ≠ "" →
     Date_of_string A = Date a → Date_of_string B = Date b →
     b < a →
     readings_limit q = Some n →
     get_readings q None coll =
       Ok {| code := 200;
             payload := Readings "Energy meter readings retrieved successfully"
                          0 [] |}).
Proof.
  split.
  - intros a b deviceId coll Hab. unfold getReadingsInRange, find_sorted.
    destruct (truthy_opt deviceId); simpl;
      by rewrite filter_none by (intros; by eapply matches_empty_range).
  - intros q coll A B a b n HA HB HAne HBne Ha Hb Hab Hn.
    assert (HtA : truthy_string A = true).
    { unfold truthy_string. by destruct (String.eqb_spec A ""). }
    assert (HtB : truthy_string B = true).
    { unfold truthy_string. by destruct (String.eqb_spec B ""). }
    assert (Hg : f_gte (readings_filter q) = Some (Date a)).
    { unfold readings_filter; simpl. rewrite HA; simpl. by rewrite HtA, Ha. }
    assert (Hl : f_lte (readings_filter q) = Some (Date b)).
    { unfold readings_filter; simpl. rewrite HB; simpl. by rewrite HtB, Hb. }
    rewrite (get_readings_ok q coll n Hn)
      by (unfold filter_castable; by rewrite Hg, Hl).
    rewrite filter_none by (intros; by eapply matches_empty_range).
    change (sort_desc []) with (@nil EnergyMeter).
    unfold limit. destruct (n =? 0); by rewrite ?take_nil.
Qed.

Lemma empty_range_witness :
  @get_readings example_runtime
    (range_only "2024-01-02T00:00:00.000Z" "2024-01-01T00:00:00.000Z")
    None five_readings =
  Ok {| code := 200;
        payload := Readings "Energy meter readings retrieved successfully"
                     0 [] |}.
Proof.
  apply (proj2 (@empty_range example_runtime)
           (range_only "2024-01-02T00:00:00.000Z" "2024-01-01T00:00:00.000Z")
           five_readings
           "2024-01-02T00:00:00.000Z" "2024-01-01T00:00:00.000Z"
           1704153600000 1704067200000 50);
    first [reflexivity | discriminate].
Defined.

(** X12. The times shown by [GET /readings] do not depend on the order in
    which the records are stored: for two collections holding the same
    records, the same query gets the same status, the same count and the
    same sequence of timestamps. *)
Theorem get_readings_order_independent `{Runtime} q fault coll coll' r r' :
  coll ≡ₚ coll' →
  get_readings q fault coll = Ok r →
  get_readings q fault coll' = Ok r' →
  code r = code r' ∧
  length (res_readings r) = length (res_readings r') ∧
  timestamp <$> res_readings r = timestamp <$> res_readings r'.
Proof.
  intros Hp. rewrite !get_readings_eq. unfold find_sorted_limit, find_sorted.
  destruct (filter_castable _); simpl; [|by intros [= <-] [= <-]].
  destruct fault; simpl; [by intros [= <-] [= <-]|].
  destruct (readings_limit q) as [n|]; [|by intros [= <-] [= <-]].
  intros [= <-] [= <-]. unfold res_readings; simpl.
  pose proof (timestamps_limit n _ _
                (filter_perm (matches (readings_filter q)) _ _ Hp)) as Ht.
  split; [done|]. split; [|done].
  by rewrite <- (length_fmap timestamp), Ht, length_fmap.
Qed.

Lemma get_readings_order_independent_witness :
  ∃ r r',
    @get_readings example_runtime (limit_only "3") None five_readings = Ok r ∧
    @get_readings example_runtime (limit_only "3") None (reverse five_readings)
      = Ok r' ∧
    code r = code r' ∧
    length (res_readings r) = length (res_readings r') ∧
    timestamp <$> res_readings r = timestamp <$> res_readings r'.
Proof.
  eexists _, _. split; [reflexivity|]. split; [reflexivity|].
  apply (@get_readings_order_independent example_runtime (limit_only "3") None
           five_readings (reverse five_readings));
    [symmetry; apply reverse_Permutation|reflexivity|reflexivity].
Defined.

Lemma sort_desc_newest (l : list EnergyMeter) d :
  d ∈ l →
  Forall (λ x, x = d ∨ timestamp x < timestamp d) l →
  ∃ rest, sort_desc l = d :: rest.
Proof.
  intros Hd Hl.
  pose proof (sort_desc_sorted l) as Hs.
  pose proof (sort_desc_perm l) as Hp.
  destruct (sort_desc l) as [|x rest].
  - rewrite <- Hp in Hd. by apply elem_of_nil in Hd.
  - exists rest. f_equal.
    apply StronglySorted_cons in Hs as [Hx _].
    assert (Hxl : x ∈ l) by (rewrite <- Hp; left).
    rewrite Forall_forall in Hl. destruct (Hl x Hxl) as [->|Hlt]; [done|].
    rewrite <- Hp in Hd. apply elem_of_cons in Hd as [->|Hd]; [done|].
    rewrite Forall_forall in Hx. specialize (Hx d Hd).
    unfold newer_first in Hx. lia.
Qed.

(** X13. A record stored by [POST /] is what [GET /readings] shows first:
    after a 201 response, when every record stored before is older than the
    new one, [GET /readings] without parameters on the new collection
    answers 200 with the new record at the head of its data. *)
Theorem post_then_get_readings `{Runtime} body env coll r coll' :
  post_root body env coll = Ok (r, coll') →
  code r = 201 →
  Forall (λ x, timestamp x < now_new env) coll →
  ∃ d r', res_data r = Some d ∧
          get_readings no_params None coll' = Ok r' ∧
          code r' = 200 ∧
          head (res_readings r') = Some d.
Proof.
  intros Hp Hc Hold.
  destruct (post_root_created _ _ _ _ _ Hp Hc) as (d & Hs & Hd & -> & _).
  destruct (saved_fields _ _ _ Hs) as (_ & _ & Heq).
  assert (Ht : timestamp d = now_new env) by (by rewrite Heq).
  exists d. eexists. split; [done|].
  split; [by apply get_readings_ok|]. split; [done|].
  unfold res_readings; simpl. rewrite filter_all by done.
  destruct (sort_desc_newest (coll ++ [d]) d) as [rest ->].
  - apply elem_of_app. right. by left.
  - apply Forall_app. split.
    + eapply Forall_impl; [exact Hold|]. intros x Hx. right. by rewrite Ht.
    + constructor; [by left|constructor].
  - done.
Qed.

Lemma post_then_get_readings_witness :
  ∃ r coll',
    @post_root example_runtime scenario_body (env_ok 7 1704067260000 1704067260001)
      five_readings = Ok (r, coll') ∧
    ∃ d r', res_data r = Some d ∧
            @get_readings example_runtime no_params None coll' = Ok r' ∧
            code r' = 200 ∧
            head (res_readings r') = Some d.
Proof.
  eexists _, _. split; [reflexivity|].
  apply (@post_then_get_readings example_runtime scenario_body
           (env_ok 7 1704067260000 1704067260001) five_readings);
    [reflexivity|reflexivity|].
  repeat constructor.
Defined.

(** X14. A record stored by [POST /] is never found by its device: whatever
    [deviceId] the body carried, the stored record has none, so no
    [GET /readings] request with a non-empty [deviceId] parameter returns
    it, on any collection. *)
Theorem posted_record_not_found_by_device `{Runtime} body env coll r coll' :
  post_root body env coll = Ok (r, coll') →
  code r = 201 →
  ∃ d, res_data r = Some d ∧
       coll' = coll ++ [d] ∧
       ∀ q fault stored r' X,
         q_deviceId q = Some X → X ≠ "" →
         get_readings q fault stored = Ok r' →
         d ∉ res_readings r'.
Proof.
  intros Hp Hc.
  destruct (post_root_created _ _ _ _ _ Hp Hc) as (d & Hs & Hd & -> & _).
  exists d. split; [done|]. split; [done|].
  intros q fault stored r' X HX Hne Hr Hin.
  apply get_readings_matched in Hr. rewrite Forall_forall in Hr.
  destruct (Hr d Hin) as [_ Hm].
  apply readings_filter_spec in Hm as (Hdev & _ & _).
  specialize (Hdev X HX Hne). by rewrite (saved_extra _ _ _ Hs) in Hdev.
Qed.

Lemma posted_record_not_found_by_device_witness :
  ∃ r coll',
    @post_root example_runtime tagged_body (env_ok 7 1000 1001) five_readings
      = Ok (r, coll') ∧
    ∃ d, res_data r = Some d ∧
         coll' = five_readings ++ [d] ∧
         ∀ q fault stored r' X,
           q_deviceId q = Some X → X ≠ "" →
           @get_readings example_runtime q fault stored = Ok r' →
           d ∉ res_readings r'.
Proof.
  eexists _, _. split; [reflexivity|].
  apply (@posted_record_not_found_by_device example_runtime tagged_body
           (env_ok 7 1000 1001) five_readings); reflexivity.
Defined.
